(** * EWS inbox delegation: a shallow embedding of [ews_delegation.py]

    The development follows [EWSDelegationManager]: the transport wrapper
    [_post_ews], the three SOAP request builders, the response analysis
    done with [xml.etree.ElementTree], the reconciliation
    [ensure_inbox_reviewer], and the manual harness that calls them.

    Conventions of the model.
    - A Python [str] is modelled by its UTF-8 encoding, a [string] of
      bytes.  Equality, concatenation, prefix and containment of texts are
      those of their encodings.  [strip] and slicing work on the encoded
      characters: [strip] knows the encodings of all white space
      characters of [str.isspace], and [s[:n]] counts characters, not
      bytes.  A text with a lone surrogate has no encoding
      ([soap_xml.encode] raises before anything is sent) and is outside
      the model.
    - [str.lower] depends on the case mappings of the Unicode database;
      it is a parameter [lower] of everything that calls it.  Two
      instances serve the examples: [PyStr.ascii_lower], which is
      [str.lower] on ASCII text, and [Mock.lower], which is [str.lower] on
      Latin-1 text.
    - A value that may be Python [None] is an [option].
    - The XML parser and the HTTP transport are external collaborators and
      enter as parameters of the section [Manager].
    - Effects are explicit: every operation is a function of the state of
      the world (server state and the log of requests handed to the
      transport) that returns an exception or a value, and the new world.
    - The diagnostic [print] calls of [get_inbox_level] are not modelled. *)

From Stdlib Require Import Ascii String NArith ZArith List Bool Lia.
From stdpp Require Import base option list gmap strings.

Import ListNotations.

Set Warnings "-register-all".

(** ** Python string operations *)

Module PyStr.

Definition is_upper (c : ascii) : bool :=
  ((65 <=? N_of_ascii c) && (N_of_ascii c <=? 90))%N.

(** [str.lower] on ASCII text: [A]..[Z] move to [a]..[z]; every other
    byte stays. *)
Definition ascii_lower_char (c : ascii) : ascii :=
  if is_upper c then ascii_of_N (N_of_ascii c + 32) else c.

Fixpoint ascii_lower (s : string) : string :=
  match s with
  | EmptyString => EmptyString
  | String c r => String (ascii_lower_char c) (ascii_lower r)
  end.

(** The byte [c] has value [k]; the byte [c] lies in [lo..hi]. *)
Definition byte_is (k : N) (c : ascii) : bool := (N_of_ascii c =? k)%N.

Definition byte_in (lo hi : N) (c : ascii) : bool :=
  ((lo <=? N_of_ascii c) && (N_of_ascii c <=? hi))%N.

(** The white space characters of [str.isspace], by the length of their
    encoding.  One byte: U+0009..U+000D, U+001C..U+0020. *)
Definition space1 (c : ascii) : bool := byte_in 9 13 c || byte_in 28 32 c.

(** Two bytes: U+0085 and U+00A0. *)
Definition space2 (c1 c2 : ascii) : bool :=
  byte_is 194 c1 && (byte_is 133 c2 || byte_is 160 c2).

(** Three bytes: U+1680, U+2000..U+200A, U+2028, U+2029, U+202F, U+205F
    and U+3000. *)
Definition space3 (c1 c2 c3 : ascii) : bool :=
  (byte_is 225 c1 && byte_is 154 c2 && byte_is 128 c3)
  || (byte_is 226 c1 && byte_is 128 c2
      && (byte_in 128 138 c3 || byte_is 168 c3 || byte_is 169 c3
          || byte_is 175 c3))
  || (byte_is 226 c1 && byte_is 129 c2 && byte_is 159 c3)
  || (byte_is 227 c1 && byte_is 128 c2 && byte_is 128 c3).

(** Drop the characters recognised by [w1], [w2], [w3] from the front. *)
Fixpoint lstrip_with (w1 : ascii -> bool) (w2 : ascii -> ascii -> bool)
    (w3 : ascii -> ascii -> ascii -> bool) (s : string) : string :=
  match s with
  | EmptyString => EmptyString
  | String c1 r1 =>
      if w1 c1 then lstrip_with w1 w2 w3 r1
      else
        match r1 with
        | EmptyString => s
        | String c2 r2 =>
            if w2 c1 c2 then lstrip_with w1 w2 w3 r2
            else
              match r2 with
              | EmptyString => s
              | String c3 r3 =>
                  if w3 c1 c2 c3 then lstrip_with w1 w2 w3 r3 else s
              end
        end
  end.

(** [s.lstrip()] *)
Definition lstrip (s : string) : string := lstrip_with space1 space2 space3 s.

(** [s.rstrip()]: the same from the back, on the reversed bytes. *)
Definition rstrip (s : string) : string :=
  String.rev
    (lstrip_with space1 (fun c1 c2 => space2 c2 c1)
       (fun c1 c2 c3 => space3 c3 c2 c1) (String.rev s)).

(** [s.strip()] *)
Definition strip (s : string) : string := rstrip (lstrip s).

(** [s.startswith(p)] *)
Definition startswith (s p : string) : bool := String.prefix p s.

(** A byte that continues the encoding of a character. *)
Definition is_continuation (c : ascii) : bool := byte_in 128 191 c.

(** [s[:n]]: the first [n] characters, each with all its bytes. *)
Fixpoint take (n : nat) (s : string) : string :=
  match s with
  | EmptyString => EmptyString
  | String c r =>
      if is_continuation c then String c (take n r)
      else
        match n with
        | O => EmptyString
        | S k => String c (take k r)
        end
  end.

(** Truthiness of a string: [bool(s)]. *)
Definition truthy (s : string) : bool :=
  match s with EmptyString => false | _ => true end.

(** [str(b).lower()] for a Python bool: [str(b)] is [True] or [False]. *)
Definition bool_lower (b : bool) : string :=
  ascii_lower (if b then "True" else "False").

(** [needle in s] *)
Definition contains (s needle : string) : Prop :=
  exists pre post, s = pre +:+ needle +:+ post.

(** Two characters that differ at most by ASCII case. *)
Definition same_char_nocase (a b : ascii) : Prop :=
  a = b
  \/ (is_upper a = true /\ N_of_ascii b = (N_of_ascii a + 32)%N)
  \/ (is_upper b = true /\ N_of_ascii a = (N_of_ascii b + 32)%N).

(** Two strings that are equal up to ASCII case. *)
Inductive eq_nocase : string -> string -> Prop :=
| eq_nocase_nil : eq_nocase EmptyString EmptyString
| eq_nocase_cons a b s t :
    same_char_nocase a b -> eq_nocase s t ->
    eq_nocase (String a s) (String b t).

(** Every character of [s] is white space. *)
Fixpoint all_space (s : string) : bool :=
  match s with
  | EmptyString => true
  | String c1 r1 =>
      if space1 c1 then all_space r1
      else
        match r1 with
        | EmptyString => false
        | String c2 r2 =>
            if space2 c1 c2 then all_space r2
            else
              match r2 with
              | EmptyString => false
              | String c3 r3 => if space3 c1 c2 c3 then all_space r3 else false
              end
        end
  end.

(** What the statements ask of [str.lower]: it does not tell apart two
    texts that differ in ASCII case only, and it keeps a blank text blank
    and a text that is not blank not blank. *)
Definition ignores_ascii_case (lower : string -> string) : Prop :=
  forall s t, eq_nocase s t -> lower s = lower t.

Definition keeps_blank (lower : string -> string) : Prop :=
  forall s, strip (lower s) = "" <-> strip s = "".

End PyStr.

(** ** The element tree of [xml.etree.ElementTree] *)

Module ET.

(** An [Element]: qualified tag in Clark notation ([{uri}local]), the
    attribute dictionary, the text before the first child ([None] when
    there is none) and the children in document order.  The [tail] of an
    element is never read by the program and is left out. *)
Inductive element : Type :=
| Element (tag : string) (attrib : gmap string string)
          (text : option string) (children : list element).

Definition tag (e : element) : string :=
  match e with Element t _ _ _ => t end.
Definition attrib (e : element) : gmap string string :=
  match e with Element _ a _ _ => a end.
Definition text (e : element) : option string :=
  match e with Element _ _ x _ => x end.
Definition children (e : element) : list element :=
  match e with Element _ _ _ cs => cs end.

(** [e.iter()]: the element and all its descendants, in document order. *)
Fixpoint iter (e : element) : list element :=
  match e with
  | Element _ _ _ cs => e :: flat_map iter cs
  end.

(** The proper descendants of [e] in document order. *)
Definition descendants (e : element) : list element :=
  flat_map iter (children e).

Definition has_tag (t : string) (e : element) : bool :=
  String.eqb (tag e) t.

(** One child step of an element path: [for e in elem: if e.tag == t]. *)
Definition child_step (t : string) (e : element) : list element :=
  List.filter (has_tag t) (children e).

(** [e.findall(".//t")]: every proper descendant with tag [t]. *)
Definition findall_descendants (t : string) (e : element) : list element :=
  List.filter (has_tag t) (descendants e).

(** [e.find(".//t")] *)
Definition find_descendant (t : string) (e : element) : option element :=
  head (findall_descendants t e).

(** [e.find("./t1/t2")]: the first [t2] child of a [t1] child. *)
Definition find_child2 (t1 t2 : string) (e : element) : option element :=
  head (flat_map (child_step t2) (child_step t1 e)).

End ET.

(** ** Exceptions, requests and responses *)

(** The exceptions the manager lets escape: the two [ValueError]s raised by
    [_post_ews], the [HTTPError] of [raise_for_status], the [ParseError] of
    [ET.fromstring], and any other [RequestException] of [requests.post]
    (connection failure, timeout). *)
Inductive exn : Type :=
| ValueError (msg : string)
| HTTPError (status : Z)
| ParseError
| RequestException.

(** What [_post_ews] hands to [requests.post].  The content type header,
    the NTLM scheme, [timeout=60] and [allow_redirects=False] are the same
    in every call and are not recorded. *)
Record request : Type := {
  req_url : string;
  req_data : string;
  req_anchor : option string;      (* the X-AnchorMailbox header, if set *)
  req_auth : string * string;
  req_verify : bool
}.

(** What the program reads of a [requests.Response]. *)
Record response : Type := {
  status_code : Z;
  www_authenticate : option string; (* resp.headers.get('WWW-Authenticate') *)
  resp_text : string
}.

(** [Response.raise_for_status]: an [HTTPError] for the 4xx and 5xx
    statuses, nothing otherwise. *)
Definition raise_for_status (resp : response) : option exn :=
  if ((400 <=? status_code resp) && (status_code resp <? 600))%Z
  then Some (HTTPError (status_code resp))
  else None.

(** How an f-string renders an optional string. *)
Definition format_opt (o : option string) : string :=
  match o with
  | Some s => s
  | None => "None"
  end.

Record EWSDelegationManager : Type := {
  ews_url : string;
  owner_upn : string;
  owner_username : string;
  owner_password : string;
  verify_tls : bool
}.

(** The result of a write or of the reconciliation: [(success, message)].
    The message is optional because [code.text] is [None] for an empty
    [ResponseCode] element. *)
Definition outcome : Type := bool * option string.

(** ** Literals of the wire protocol *)

Definition dq : string := String (ascii_of_nat 34) EmptyString.
Definition nl : string := String (ascii_of_nat 10) EmptyString.
Definition quoted (s : string) : string := dq +:+ s +:+ dq.

Definition NS_M : string :=
  "http://schemas.microsoft.com/exchange/services/2006/messages".
Definition NS_T : string :=
  "http://schemas.microsoft.com/exchange/services/2006/types".
Definition NS_SOAP : string := "http://schemas.xmlsoap.org/soap/envelope/".

(** A prefixed name resolved against its namespace, in Clark notation. *)
Definition qname (ns local : string) : string := "{" +:+ ns +:+ "}" +:+ local.

(** The first two lines of every request: the XML declaration and the
    opening tag of the envelope. *)
Definition envelope_open : string :=
  "<?xml version=" +:+ quoted "1.0" +:+ " encoding=" +:+ quoted "utf-8" +:+ "?>"
  +:+ nl +:+
  "<soap:Envelope xmlns:soap=" +:+ quoted NS_SOAP +:+
  " xmlns:t=" +:+ quoted NS_T +:+ " xmlns:m=" +:+ quoted NS_M +:+ ">" +:+ nl.

Definition _soap_header : string :=
  "<soap:Header><t:RequestServerVersion Version=" +:+ quoted "Exchange2010_SP2"
  +:+ "/></soap:Header>".

Definition default_deliver_meeting : string := "DelegatesAndSendInformationToMe".

(** ** The three request bodies (the [soap] f-strings) *)

(** The body built by [get_inbox_level]. *)
Definition soap_get_delegate (owner : string) : string :=
  envelope_open +:+
  _soap_header +:+ nl +:+
  "<soap:Body>" +:+ nl +:+
  "<m:GetDelegate IncludePermissions=" +:+ quoted "true" +:+ ">" +:+ nl +:+
  "<m:Mailbox><t:EmailAddress>" +:+ owner +:+ "</t:EmailAddress></m:Mailbox>" +:+ nl +:+
  "<m:UserIds>" +:+ nl +:+
  "<!-- 不指定具体 delegate，GetDelegate 会返回所有委派。如需只查某个 delegate，可在这里放 <t:UserId> -->" +:+ nl +:+
  "</m:UserIds>" +:+ nl +:+
  "</m:GetDelegate>" +:+ nl +:+
  "</soap:Body>" +:+ nl +:+
  "</soap:Envelope>".

(** The body built by [add_delegate_inbox_reviewer]. *)
Definition soap_add_delegate (owner delegate_upn : string)
    (receive_copies view_private : bool) (deliver_meeting : string) : string :=
  envelope_open +:+
  _soap_header +:+ nl +:+
  "<soap:Body>" +:+ nl +:+
  "<m:AddDelegate>" +:+ nl +:+
  "<m:Mailbox><t:EmailAddress>" +:+ owner +:+ "</t:EmailAddress></m:Mailbox>" +:+ nl +:+
  "<m:DelegateUsers>" +:+ nl +:+
  "<t:DelegateUser>" +:+ nl +:+
  "<t:UserId><t:PrimarySmtpAddress>" +:+ delegate_upn +:+
    "</t:PrimarySmtpAddress></t:UserId>" +:+ nl +:+
  "<t:DelegatePermissions>" +:+ nl +:+
  "<t:InboxFolderPermissionLevel>Reviewer</t:InboxFolderPermissionLevel>" +:+ nl +:+
  "</t:DelegatePermissions>" +:+ nl +:+
  "<t:ReceiveCopiesOfMeetingMessages>" +:+ PyStr.bool_lower receive_copies +:+
    "</t:ReceiveCopiesOfMeetingMessages>" +:+ nl +:+
  "<t:ViewPrivateItems>" +:+ PyStr.bool_lower view_private +:+
    "</t:ViewPrivateItems>" +:+ nl +:+
  "</t:DelegateUser>" +:+ nl +:+
  "</m:DelegateUsers>" +:+ nl +:+
  "<m:DeliverMeetingRequests>" +:+ deliver_meeting +:+
    "</m:DeliverMeetingRequests>" +:+ nl +:+
  "</m:AddDelegate>" +:+ nl +:+
  "</soap:Body>" +:+ nl +:+
  "</soap:Envelope>".

(** The body built by [update_delegate_inbox]. *)
Definition soap_update_delegate (owner delegate_upn level : string) : string :=
  envelope_open +:+
  _soap_header +:+ nl +:+
  "<soap:Body>" +:+ nl +:+
  "<m:UpdateDelegate>" +:+ nl +:+
  "<m:Mailbox><t:EmailAddress>" +:+ owner +:+ "</t:EmailAddress></m:Mailbox>" +:+ nl +:+
  "<m:DelegateUsers>" +:+ nl +:+
  "<t:DelegateUser>" +:+ nl +:+
  "<t:UserId><t:PrimarySmtpAddress>" +:+ delegate_upn +:+
    "</t:PrimarySmtpAddress></t:UserId>" +:+ nl +:+
  "<t:DelegatePermissions>" +:+ nl +:+
  "<t:InboxFolderPermissionLevel>" +:+ level +:+
    "</t:InboxFolderPermissionLevel>" +:+ nl +:+
  "</t:DelegatePermissions>" +:+ nl +:+
  "</t:DelegateUser>" +:+ nl +:+
  "</m:DelegateUsers>" +:+ nl +:+
  "<m:DeliverMeetingRequests>DelegatesAndSendInformationToMe</m:DeliverMeetingRequests>"
    +:+ nl +:+
  "</m:UpdateDelegate>" +:+ nl +:+
  "</soap:Body>" +:+ nl +:+
  "</soap:Envelope>".

(** ** Response analysis (the part of each method after [ET.fromstring]) *)

(** The body of the [for du in root.findall(...)] loop of
    [get_inbox_level]: nothing when the entry is skipped by [continue],
    the yielded pair otherwise.  [lower] is [str.lower]. *)
Definition delegate_entry (lower : string -> string) (du : ET.element)
    : list (string * option string) :=
  match ET.find_child2 (qname NS_T "UserId") (qname NS_T "PrimarySmtpAddress") du with
  | None => []
  | Some upn =>
      let upn_text := default "" (ET.text upn) in
      if negb (PyStr.truthy (PyStr.strip upn_text)) then []
      else
        let inbox := ET.find_child2 (qname NS_T "DelegatePermissions")
                       (qname NS_T "InboxFolderPermissionLevel") du in
        [(lower upn_text,
          match inbox with
          | Some i => ET.text i
          | None => None
          end)]
  end.

(** Everything [get_inbox_level] yields from a parsed response. *)
Definition delegates_of_root (lower : string -> string) (root : ET.element)
    : list (string * option string) :=
  flat_map (delegate_entry lower)
    (ET.findall_descendants (qname NS_T "DelegateUser") root).

(** The result of [add_delegate_inbox_reviewer] from a parsed response. *)
Definition add_result (root : ET.element) : outcome :=
  let resp := ET.find_descendant (qname NS_M "AddDelegateResponse") root in
  if match resp with
     | Some r => bool_decide (ET.attrib r !! "ResponseClass" = Some "Success")
     | None => false
     end
  then (true, Some "AddDelegate Success")
  else
    let code := ET.find_descendant (qname NS_M "ResponseCode") root in
    (false, match code with
            | Some c => ET.text c
            | None => Some "UnknownError"
            end).

(** The result of [update_delegate_inbox] from a parsed response. *)
Definition update_result (root : ET.element) : outcome :=
  let resp := ET.find_descendant (qname NS_M "UpdateDelegateResponse") root in
  if match resp with
     | Some r => bool_decide (ET.attrib r !! "ResponseClass" = Some "Success")
     | None => false
     end
  then (true, Some "UpdateDelegate Success")
  else
    let code := ET.find_descendant (qname NS_M "ResponseCode") root in
    (false, match code with
            | Some c => ET.text c
            | None => Some "UnknownError"
            end).

(** The [for ... break] scan of [ensure_inbox_reviewer]: [found_level]
    after the loop, for the already lower-cased target. *)
Fixpoint scan_found_level (entries : list (string * option string))
    (target : string) : option string :=
  match entries with
  | [] => None
  | (upn, level) :: rest =>
      if String.eqb upn target then level
      else scan_found_level rest target
  end.

(** ** The manager *)

Section Manager.

(** [str.lower], a service of the Python runtime. *)
Variable lower : string -> string.

(** The state of the mailbox server, and [requests.post] as a function
    of it: the reply ([None] when the call raises instead of returning a
    response) and the next server state. *)
Context {Server : Type}.
Variable requests_post : request -> Server -> option response * Server.

(** [ET.fromstring]; [None] stands for [ET.ParseError]. *)
Variable fromstring : string -> option ET.element.

Variable self : EWSDelegationManager.

(** The world an operation runs in: the server, and the requests handed
    to the transport so far, oldest first. *)
Record world : Type := World {
  server : Server;
  sent : list request
}.

(** Computations that may raise and that change the world. *)
Definition M (A : Type) : Type := world -> (exn + A) * world.

Definition ret {A : Type} (a : A) : M A := fun w => (inr a, w).

Definition raise {A : Type} (e : exn) : M A := fun w => (inl e, w).

Definition bind {A B : Type} (m : M A) (k : A -> M B) : M B :=
  fun w =>
    match m w with
    | (inl e, w') => (inl e, w')
    | (inr a, w') => k a w'
    end.

Notation "x <- m ;; k" := (bind m (fun x => k))
  (at level 100, m at next level, right associativity).

(** The call of [requests.post] inside [_post_ews]. *)
Definition post (req : request) : M response :=
  fun w =>
    let (reply, s') := requests_post req (server w) in
    let w' := {| server := s'; sent := sent w ++ [req] |} in
    match reply with
    | Some resp => (inr resp, w')
    | None => (inl RequestException, w')
    end.

(** The request [_post_ews] builds for a body and an anchor. *)
Definition make_request (soap_xml : string) (anchor : option string) : request :=
  {| req_url := ews_url self;
     req_data := soap_xml;
     req_anchor := match anchor with
                   | Some a => if PyStr.truthy a then Some a else None
                   | None => None
                   end;
     req_auth := (owner_username self, owner_password self);
     req_verify := verify_tls self |}.

Definition _post_ews (soap_xml : string) (anchor : option string) : M string :=
  resp <- post (make_request soap_xml anchor) ;;
  if (status_code resp =? 401)%Z then
    raise (ValueError ("401 Unauthorized. WWW-Authenticate: "
                       +:+ format_opt (www_authenticate resp)))
  else
    match raise_for_status resp with
    | Some e => raise e
    | None =>
        let response_text := resp_text resp in
        if PyStr.startswith (PyStr.strip response_text) "<!DOCTYPE HTML"
           || PyStr.startswith (PyStr.strip response_text) "<html"
        then
          raise (ValueError
            ("Received HTML response instead of XML. This typically indicates an authentication issue or incorrect EWS URL. Check your credentials and URL. First 100 chars: "
             +:+ PyStr.take 100 response_text))
        else ret response_text
    end.

(** [ET.fromstring(xml)], raising [ParseError]. *)
Definition parse (xml : string) : M ET.element :=
  match fromstring xml with
  | Some root => ret root
  | None => raise ParseError
  end.

(** All the pairs [get_inbox_level] yields.  The generator runs its
    request when the first element is asked for, and yields from the one
    parsed response. *)
Definition get_inbox_level : M (list (string * option string)) :=
  xml <- _post_ews (soap_get_delegate (owner_upn self)) (Some (owner_upn self)) ;;
  root <- parse xml ;;
  ret (delegates_of_root lower root).

Definition add_delegate_inbox_reviewer (delegate_upn : string)
    (receive_copies view_private : bool) (deliver_meeting : string) : M outcome :=
  xml <- _post_ews (soap_add_delegate (owner_upn self) delegate_upn
                      receive_copies view_private deliver_meeting)
                   (Some (owner_upn self)) ;;
  root <- parse xml ;;
  ret (add_result root).

Definition update_delegate_inbox (delegate_upn level : string) : M outcome :=
  xml <- _post_ews (soap_update_delegate (owner_upn self) delegate_upn level)
                   (Some (owner_upn self)) ;;
  root <- parse xml ;;
  ret (update_result root).

Definition ensure_inbox_reviewer (delegate_upn : string) : M outcome :=
  entries <- get_inbox_level ;;
  let found_level := scan_found_level entries (lower delegate_upn) in
  match found_level with
  | None =>
      add_delegate_inbox_reviewer delegate_upn false false default_deliver_meeting
  | Some level =>
      if negb (String.eqb level "Reviewer")
      then update_delegate_inbox delegate_upn "Reviewer"
      else ret (true, Some "Already Reviewer")
  end.

(** The requests of the three operations, as they appear in the log. *)
Definition get_request : request :=
  make_request (soap_get_delegate (owner_upn self)) (Some (owner_upn self)).

Definition add_request (delegate_upn : string) (receive_copies view_private : bool)
    (deliver_meeting : string) : request :=
  make_request
    (soap_add_delegate (owner_upn self) delegate_upn receive_copies view_private
       deliver_meeting)
    (Some (owner_upn self)).

Definition update_request (delegate_upn level : string) : request :=
  make_request (soap_update_delegate (owner_upn self) delegate_upn level)
    (Some (owner_upn self)).

(** The shape the three operations share: send a body with the owner as
    anchor, parse the reply, analyse the tree with [f]. *)
Definition exchange {A : Type} (soap_xml : string) (f : ET.element -> A) : M A :=
  xml <- _post_ews soap_xml (Some (owner_upn self)) ;;
  root <- parse xml ;;
  ret (f root).

(** A stable server: a read succeeds and leaves the server as it was. *)
Definition stable_reads : Prop :=
  forall w, exists entries w',
    get_inbox_level w = (inr entries, w') /\ server w' = server w.

(** A read in world [w] finds the delegate at level [Reviewer]. *)
Definition reads_reviewer (delegate_upn : string) (w : world) : Prop :=
  exists entries w',
    get_inbox_level w = (inr entries, w')
    /\ scan_found_level entries (lower delegate_upn) = Some "Reviewer".

(** The writes for a delegate succeed and take effect: the next read
    finds the delegate at level [Reviewer]. *)
Definition add_takes_effect (delegate_upn : string) : Prop :=
  forall w, exists message w',
    add_delegate_inbox_reviewer delegate_upn false false default_deliver_meeting w
      = (inr (true, message), w')
    /\ reads_reviewer delegate_upn w'.

Definition update_takes_effect (delegate_upn : string) : Prop :=
  forall w, exists message w',
    update_delegate_inbox delegate_upn "Reviewer" w = (inr (true, message), w')
    /\ reads_reviewer delegate_upn w'.

End Manager.

(** ** Vocabulary for the statements *)

(** The entry at which the scan of [ensure_inbox_reviewer] breaks, if any. *)
Definition scan_match (entries : list (string * option string))
    (target : string) : option (string * option string) :=
  List.find (fun e => String.eqb (fst e) target) entries.

(** The test [_post_ews] applies to a body to tell HTML from XML. *)
Definition looks_like_html (body : string) : bool :=
  PyStr.startswith (PyStr.strip body) "<!DOCTYPE HTML"
  || PyStr.startswith (PyStr.strip body) "<html".

(** The messages of the two [ValueError]s of [_post_ews]. *)
Definition unauthorized_message (header : option string) : string :=
  "401 Unauthorized. WWW-Authenticate: " +:+ format_opt header.

Definition html_message (body : string) : string :=
  "Received HTML response instead of XML. This typically indicates an authentication issue or incorrect EWS URL. Check your credentials and URL. First 100 chars: "
  +:+ PyStr.take 100 body.

(** What [_post_ews] makes of the transport's reply. *)
Definition checked_reply (reply : option response) : exn + string :=
  match reply with
  | None => inl RequestException
  | Some resp =>
      if (status_code resp =? 401)%Z then
        inl (ValueError (unauthorized_message (www_authenticate resp)))
      else if ((400 <=? status_code resp) && (status_code resp <? 600))%Z then
        inl (HTTPError (status_code resp))
      else if looks_like_html (resp_text resp) then
        inl (ValueError (html_message (resp_text resp)))
      else inr (resp_text resp)
  end.

(** What a reply and the parser make of an exchange whose parsed response
    is analysed by [f]. *)
Definition exchange_result {A : Type} (fromstring : string -> option ET.element)
    (f : ET.element -> A) (reply : option response) : exn + A :=
  match checked_reply reply with
  | inl e => inl e
  | inr xml =>
      match fromstring xml with
      | Some root => inr (f root)
      | None => inl ParseError
      end
  end.

(** The contract of a write on a parsed response: success exactly when the
    first [response_tag] element of the messages namespace carries
    [ResponseClass="Success"]; the fixed message on success; on failure
    the text of the first [ResponseCode] element, or [UnknownError]. *)
Definition write_contract (response_tag success_message : string)
    (root : ET.element) (o : outcome) : Prop :=
  (fst o = true <->
     exists r, ET.find_descendant (qname NS_M response_tag) root = Some r
               /\ ET.attrib r !! "ResponseClass" = Some "Success")
  /\ (fst o = true -> snd o = Some success_message)
  /\ (fst o = false ->
        snd o = match ET.find_descendant (qname NS_M "ResponseCode") root with
                | Some code => ET.text code
                | None => Some "UnknownError"
                end).

(** [build] puts its argument into the text as it is: the text is a fixed
    prefix, the argument, and a fixed suffix. *)
Definition verbatim_in (build : string -> string) : Prop :=
  exists pre post, forall s, build s = pre +:+ s +:+ post.

(** The three kinds of call, recognised by the body of the request. *)
Definition is_get_call (owner : string) (req : request) : Prop :=
  req_data req = soap_get_delegate owner.

Definition is_add_call (owner : string) (req : request) : Prop :=
  exists d rc vp dm, req_data req = soap_add_delegate owner d rc vp dm.

Definition is_update_call (owner : string) (req : request) : Prop :=
  exists d level, req_data req = soap_update_delegate owner d level.

(** The address and the level of a [DelegateUser] entry, as the spec
    describes a delegate record: the text of its primary address ([None]
    when the element or its text is missing) and the text of its inbox
    permission level ([None] when absent). *)
Definition address_of (du : ET.element) : option string :=
  upn ← ET.find_child2 (qname NS_T "UserId") (qname NS_T "PrimarySmtpAddress") du;
  ET.text upn.

Definition level_of (du : ET.element) : option string :=
  inbox ← ET.find_child2 (qname NS_T "DelegatePermissions")
            (qname NS_T "InboxFolderPermissionLevel") du;
  ET.text inbox.

(** The record of one entry in the words of the spec: none for a missing
    or blank address, else the lower-cased address with the level. *)
Definition record_of (lower : string -> string) (du : ET.element)
    : option (string * option string) :=
  match address_of du with
  | None => None
  | Some a =>
      if bool_decide (PyStr.strip a = "") then None
      else Some (lower a, level_of du)
  end.

(** ** A lexical condition every well-formed XML document meets

    In XML 1.0 a [<] opens markup: it is followed by a name start
    character, [/], [!] or [?]; inside a tag, and inside an attribute
    value, no [<] occurs; comments, processing instructions and CDATA
    sections are closed before the document ends.  [lexically_ok] checks
    only this (it accepts any document with a [<!] declaration other than
    a comment or a CDATA section), so a text it rejects is not well-formed. *)

Module XmlLex.

Inductive mode : Type :=
| Content | Tag | AttrDq | AttrSq | Comment | PI | CData
| Skip (n : nat) (next : mode). (* [n] more characters, then [next] *)

Definition is_name_start (c : ascii) : bool :=
  let n := N_of_ascii c in
  (((65 <=? n) && (n <=? 90)) || ((97 <=? n) && (n <=? 122))
   || (n =? 58) || (n =? 95) || (128 <=? n))%N.

Fixpoint scan (m : mode) (s : string) : bool :=
  match s with
  | EmptyString => match m with Content => true | _ => false end
  | String c r =>
      match m with
      | Skip 0 next => false
      | Skip 1 next => scan next r
      | Skip (S k) next => scan (Skip k next) r
      | Content =>
          if Ascii.eqb c "<"%char then
            if String.prefix "!--" r then scan (Skip 3 Comment) r
            else if String.prefix "![CDATA[" r then scan (Skip 8 CData) r
            else if String.prefix "!" r then true
            else if String.prefix "?" r then scan (Skip 1 PI) r
            else if String.prefix "/" r then scan Tag r
            else match r with
                 | String c' _ => if is_name_start c' then scan Tag r else false
                 | EmptyString => false
                 end
          else scan Content r
      | Tag =>
          if Ascii.eqb c "<"%char then false
          else if Ascii.eqb c ">"%char then scan Content r
          else if Ascii.eqb c (ascii_of_nat 34) then scan AttrDq r
          else if Ascii.eqb c "'"%char then scan AttrSq r
          else scan Tag r
      | AttrDq =>
          if Ascii.eqb c "<"%char then false
          else if Ascii.eqb c (ascii_of_nat 34) then scan Tag r
          else scan AttrDq r
      | AttrSq =>
          if Ascii.eqb c "<"%char then false
          else if Ascii.eqb c "'"%char then scan Tag r
          else scan AttrSq r
      | Comment =>
          if String.prefix "-->" s then scan (Skip 2 Content) r
          else scan Comment r
      | PI =>
          if String.prefix "?>" s then scan (Skip 1 Content) r
          else scan PI r
      | CData =>
          if String.prefix "]]>" s then scan (Skip 2 Content) r
          else scan CData r
      end
  end.

Definition lexically_ok (s : string) : bool := scan Content s.

End XmlLex.

(** ** Sample documents and a mock server

    Trees of the kind [ET.fromstring] returns for EWS responses, the
    texts they are parsed from, and a mock mailbox server with one
    possible delegate.  They are the concrete inputs of the examples. *)

Module Mock.

(** [str.lower] on Latin-1 text: the ASCII capitals, and the capitals
    U+00C0..U+00DE other than the multiplication sign U+00D7, encoded as
    the byte 195 followed by a byte in 128..158, move up by 32. *)
Fixpoint lower (s : string) : string :=
  match s with
  | EmptyString => EmptyString
  | String c1 r1 =>
      match r1 with
      | String c2 r2 =>
          if PyStr.byte_is 195 c1 && PyStr.byte_in 128 158 c2
             && negb (PyStr.byte_is 151 c2)
          then String c1 (String (ascii_of_N (N_of_ascii c2 + 32)) (lower r2))
          else String (PyStr.ascii_lower_char c1) (lower r1)
      | EmptyString => String (PyStr.ascii_lower_char c1) EmptyString
      end
  end.

Definition node (t : string) (cs : list ET.element) : ET.element :=
  ET.Element t ∅ None cs.

Definition leaf (t x : string) : ET.element :=
  ET.Element t ∅ (Some x) [].

Definition envelope (payload : ET.element) : ET.element :=
  node (qname NS_SOAP "Envelope") [node (qname NS_SOAP "Body") [payload]].

Definition envelope_text (payload : string) : string :=
  "<s:Envelope xmlns:s='" +:+ NS_SOAP +:+ "' xmlns:m='" +:+ NS_M +:+
  "' xmlns:t='" +:+ NS_T +:+ "'><s:Body>" +:+ payload +:+
  "</s:Body></s:Envelope>".

(** A [DelegateUser] entry with an address and an optional inbox level. *)
Definition delegate_user (address : string) (level : option string) : ET.element :=
  node (qname NS_T "DelegateUser")
    (node (qname NS_T "UserId") [leaf (qname NS_T "PrimarySmtpAddress") address]
     :: match level with
        | Some l => [node (qname NS_T "DelegatePermissions")
                       [leaf (qname NS_T "InboxFolderPermissionLevel") l]]
        | None => []
        end).

Definition delegate_user_text (address : string) (level : option string) : string :=
  "<t:DelegateUser><t:UserId><t:PrimarySmtpAddress>" +:+ address +:+
  "</t:PrimarySmtpAddress></t:UserId>" +:+
  match level with
  | Some l => "<t:DelegatePermissions><t:InboxFolderPermissionLevel>" +:+ l +:+
              "</t:InboxFolderPermissionLevel></t:DelegatePermissions>"
  | None => ""
  end +:+ "</t:DelegateUser>".

(** A successful [GetDelegate] response with the given entries. *)
Definition get_response (entries : list (string * option string)) : ET.element :=
  envelope
    (ET.Element (qname NS_M "GetDelegateResponse")
       {[ "ResponseClass" := "Success" ]} None
       (leaf (qname NS_M "ResponseCode") "NoError"
        :: map (fun e => delegate_user (fst e) (snd e)) entries)).

Definition get_response_text (entries : list (string * option string)) : string :=
  envelope_text
    ("<m:GetDelegateResponse ResponseClass='Success'>" +:+
     "<m:ResponseCode>NoError</m:ResponseCode>" +:+
     foldr (fun e acc => delegate_user_text (fst e) (snd e) +:+ acc) "" entries +:+
     "</m:GetDelegateResponse>").

(** The response of the spec's example: [a@x.com] with level
    [Reviewer], then [b@x.com] without an inbox level. *)
Definition two_delegates : list (string * option string) :=
  [("a@x.com", Some "Reviewer"); ("b@x.com", None)].

(** A well-formed error response to [GetDelegate]. *)
Definition get_error_response : ET.element :=
  envelope
    (ET.Element (qname NS_M "GetDelegateResponse")
       {[ "ResponseClass" := "Error" ]} None
       [leaf (qname NS_M "MessageText") "Access is denied.";
        leaf (qname NS_M "ResponseCode") "ErrorAccessDenied"]).

Definition get_error_response_text : string :=
  envelope_text
    ("<m:GetDelegateResponse ResponseClass='Error'>" +:+
     "<m:MessageText>Access is denied.</m:MessageText>" +:+
     "<m:ResponseCode>ErrorAccessDenied</m:ResponseCode>" +:+
     "</m:GetDelegateResponse>").

(** Responses to the two writes: [op] is [AddDelegate] or
    [UpdateDelegate]. *)
Definition write_success (op : string) : ET.element :=
  envelope
    (ET.Element (qname NS_M (op +:+ "Response"))
       {[ "ResponseClass" := "Success" ]} None
       [leaf (qname NS_M "ResponseCode") "NoError"]).

Definition write_success_text (op : string) : string :=
  envelope_text
    ("<m:" +:+ op +:+ "Response ResponseClass='Success'>" +:+
     "<m:ResponseCode>NoError</m:ResponseCode></m:" +:+ op +:+ "Response>").

Definition write_failure (op code : string) : ET.element :=
  envelope
    (ET.Element (qname NS_M (op +:+ "Response"))
       {[ "ResponseClass" := "Error" ]} None
       [leaf (qname NS_M "ResponseCode") code]).

Definition write_failure_text (op code : string) : string :=
  envelope_text
    ("<m:" +:+ op +:+ "Response ResponseClass='Error'>" +:+
     "<m:ResponseCode>" +:+ code +:+ "</m:ResponseCode></m:" +:+ op +:+ "Response>").

(** The no-break space U+00A0, which [str.strip] removes. *)
Definition nbsp : string :=
  String (ascii_of_nat 194) (String (ascii_of_nat 160) EmptyString).

(** A [GetDelegate] response with five entries: an address with ASCII
    capitals; an entry without [UserId]; an address element without
    text; an address that is a no-break space; an address with a
    non-ASCII capital. *)
Definition mixed_response : ET.element :=
  envelope
    (ET.Element (qname NS_M "GetDelegateResponse")
       {[ "ResponseClass" := "Success" ]} None
       [leaf (qname NS_M "ResponseCode") "NoError";
        delegate_user "John@Example.com" (Some "Reviewer");
        node (qname NS_T "DelegateUser")
          [node (qname NS_T "DelegatePermissions")
             [leaf (qname NS_T "InboxFolderPermissionLevel") "Editor"]];
        node (qname NS_T "DelegateUser")
          [node (qname NS_T "UserId") [node (qname NS_T "PrimarySmtpAddress") []];
           node (qname NS_T "DelegatePermissions")
             [leaf (qname NS_T "InboxFolderPermissionLevel") "Editor"]];
        delegate_user nbsp (Some "Author");
        delegate_user "JÖRG@x.com" (Some "Author")]).

Definition mixed_response_text : string :=
  envelope_text
    ("<m:GetDelegateResponse ResponseClass='Success'>" +:+
     "<m:ResponseCode>NoError</m:ResponseCode>" +:+
     delegate_user_text "John@Example.com" (Some "Reviewer") +:+
     "<t:DelegateUser><t:DelegatePermissions>" +:+
     "<t:InboxFolderPermissionLevel>Editor</t:InboxFolderPermissionLevel>" +:+
     "</t:DelegatePermissions></t:DelegateUser>" +:+
     "<t:DelegateUser><t:UserId><t:PrimarySmtpAddress/></t:UserId>" +:+
     "<t:DelegatePermissions>" +:+
     "<t:InboxFolderPermissionLevel>Editor</t:InboxFolderPermissionLevel>" +:+
     "</t:DelegatePermissions></t:DelegateUser>" +:+
     delegate_user_text nbsp (Some "Author") +:+
     delegate_user_text "JÖRG@x.com" (Some "Author") +:+
     "</m:GetDelegateResponse>").

(** A parser that knows that one document. *)
Definition mixed_fromstring (xml : string) : option ET.element :=
  if String.eqb xml mixed_response_text then Some mixed_response else None.

Fixpoint replicate (n : nat) (s : string) : string :=
  match n with
  | O => EmptyString
  | S k => s +:+ replicate k s
  end.

(** The mailbox of the mock: its owner, and the one delegate it can
    hold, stored with the capitals its user typed. *)
Definition manager : EWSDelegationManager :=
  {| ews_url := "https://mail.example.com/EWS/Exchange.asmx";
     owner_upn := "owner@example.com";
     owner_username := "owner";
     owner_password := "secret";
     verify_tls := true |}.

Definition stored_address : string := "John@Example.com".
Definition delegate : string := "john@example.com".

(** The delegate is absent, or present with no inbox level, with level
    [Author], or with level [Reviewer]. *)
Inductive state : Type := Absent | Unset | Author | Reviewer.

Definition entries_of (s : state) : list (string * option string) :=
  match s with
  | Absent => []
  | Unset => [(stored_address, None)]
  | Author => [(stored_address, Some "Author")]
  | Reviewer => [(stored_address, Some "Reviewer")]
  end.

Definition ok (body : string) : option response :=
  Some {| status_code := 200; www_authenticate := None; resp_text := body |}.

(** The mock transport.  With [strict], [AddDelegate] fails for a
    delegate that exists and [UpdateDelegate] for one that does not, as
    on the mailbox server; without, every write succeeds and takes
    effect. *)
Definition requests_post (strict : bool) (req : request) (s : state)
    : option response * state :=
  if String.eqb (req_data req) (soap_get_delegate (owner_upn manager)) then
    (ok (get_response_text (entries_of s)), s)
  else if String.eqb (req_data req)
            (soap_add_delegate (owner_upn manager) delegate false false
               default_deliver_meeting) then
    match s with
    | Absent => (ok (write_success_text "AddDelegate"), Reviewer)
    | _ =>
        if strict
        then (ok (write_failure_text "AddDelegate" "ErrorDelegateAlreadyExists"), s)
        else (ok (write_success_text "AddDelegate"), Reviewer)
    end
  else if String.eqb (req_data req)
            (soap_update_delegate (owner_upn manager) delegate "Reviewer") then
    match s with
    | Absent =>
        if strict
        then (ok (write_failure_text "UpdateDelegate" "ErrorDelegateNoUser"), s)
        else (ok (write_success_text "UpdateDelegate"), Reviewer)
    | _ => (ok (write_success_text "UpdateDelegate"), Reviewer)
    end
  else
    (Some {| status_code := 500; www_authenticate := None; resp_text := "" |}, s).

(** [ET.fromstring] on the documents above. *)
Definition documents : list (string * ET.element) :=
  [(get_response_text [], get_response []);
   (get_response_text (entries_of Unset), get_response (entries_of Unset));
   (get_response_text (entries_of Author), get_response (entries_of Author));
   (get_response_text (entries_of Reviewer), get_response (entries_of Reviewer));
   (get_response_text two_delegates, get_response two_delegates);
   (get_error_response_text, get_error_response);
   (write_success_text "AddDelegate", write_success "AddDelegate");
   (write_success_text "UpdateDelegate", write_success "UpdateDelegate");
   (write_failure_text "AddDelegate" "ErrorDelegateAlreadyExists",
    write_failure "AddDelegate" "ErrorDelegateAlreadyExists");
   (write_failure_text "UpdateDelegate" "ErrorDelegateNoUser",
    write_failure "UpdateDelegate" "ErrorDelegateNoUser")].

Definition fromstring (xml : string) : option ET.element :=
  snd <$> List.find (fun d => String.eqb (fst d) xml) documents.

(** A transport that answers every request with the same reply. *)
Definition constant_post (reply : option response) (req : request) (s : unit)
    : option response * unit :=
  (reply, s).

End Mock.

(** ** The manual harness [test_ews_delegation.py]

    The constants at the head of the script are its parameters; [print]
    and [logger] output is not modelled.  Each [test_*] function runs one
    operation inside [try ... except Exception: ...; raise], which lets
    every exception of the manager through unchanged. *)

Record constants : Type := {
  EWS_URL : string;
  OWNER_UPN : string;
  OWNER_USERNAME : string;
  OWNER_PASSWORD : string;
  VERIFY_TLS : bool;
  DELEGATE_UPN : string;
  UPDATE_LEVEL : string;
  RUN_LIST_BEFORE : bool;
  RUN_ADD_IF_NOT_EXISTS : bool;
  RUN_UPDATE : bool;
  RUN_ENSURE : bool;
  RUN_LIST_AFTER : bool
}.

(** What escapes [main]: [SystemExit] of the configuration check, or an
    exception of the manager. *)
Inductive script_exn : Type :=
| SystemExit (msg : string)
| Uncaught (e : exn).

(** [sep.join(items)] *)
Fixpoint join (sep : string) (items : list string) : string :=
  match items with
  | [] => ""
  | [x] => x
  | x :: rest => x +:+ sep +:+ join sep rest
  end.

(** The list [missing] that [main] builds. *)
Definition missing_constants (c : constants) : list string :=
  (if negb (PyStr.truthy (EWS_URL c)) then ["EWS_URL"] else [])
  ++ (if negb (PyStr.truthy (OWNER_UPN c)) then ["OWNER_UPN"] else [])
  ++ (if negb (PyStr.truthy (OWNER_USERNAME c)) then ["OWNER_USERNAME"] else [])
  ++ (if negb (PyStr.truthy (OWNER_PASSWORD c)) then ["OWNER_PASSWORD"] else []).

(** The manager [main] constructs. *)
Definition manager_of (c : constants) : EWSDelegationManager :=
  {| ews_url := EWS_URL c;
     owner_upn := OWNER_UPN c;
     owner_username := OWNER_USERNAME c;
     owner_password := OWNER_PASSWORD c;
     verify_tls := VERIFY_TLS c |}.

Section Harness.

Variable lower : string -> string.
Context {Server : Type}.
Variable requests_post : request -> Server -> option response * Server.
Variable fromstring : string -> option ET.element.

(** Computations of the script. *)
Definition Script (A : Type) : Type :=
  @world Server -> (script_exn + A) * @world Server.

Definition script_ret {A : Type} (a : A) : Script A := fun w => (inr a, w).

Definition script_bind {A B : Type} (m : Script A) (k : A -> Script B) : Script B :=
  fun w =>
    match m w with
    | (inl e, w') => (inl e, w')
    | (inr a, w') => k a w'
    end.

(** [try: m  except Exception as e: logger.error(...); raise] *)
Definition reraising {A : Type} (m : @M Server A) : Script A :=
  fun w =>
    match m w with
    | (inl e, w') => (inl (Uncaught e), w')
    | (inr a, w') => (inr a, w')
    end.

(** The loop of [test_get_inbox_level] consumes the whole listing. *)
Definition test_get_inbox_level (delegation_manager : EWSDelegationManager)
    : Script unit :=
  reraising
    (bind (get_inbox_level lower requests_post fromstring delegation_manager)
       (fun _ => ret tt)).

Definition test_ensure_inbox_reviewer (delegation_manager : EWSDelegationManager)
    (delegate_upn : string) : Script outcome :=
  reraising (ensure_inbox_reviewer lower requests_post fromstring delegation_manager
               delegate_upn).

Definition test_update_delegate_inbox (delegation_manager : EWSDelegationManager)
    (delegate_upn level : string) : Script outcome :=
  reraising (update_delegate_inbox requests_post fromstring delegation_manager
               delegate_upn level).

Definition test_add_delegate_inbox_reviewer
    (delegation_manager : EWSDelegationManager) (delegate_upn : string)
    : Script outcome :=
  reraising (add_delegate_inbox_reviewer requests_post fromstring delegation_manager
               delegate_upn false false default_deliver_meeting).

(** [if toggle: step(...)], the result of the step dropped. *)
Definition when_set {A : Type} (toggle : bool) (step : Script A) : Script unit :=
  if toggle then script_bind step (fun _ => script_ret tt) else script_ret tt.

Definition main (c : constants) : Script unit :=
  let missing := missing_constants c in
  match missing with
  | _ :: _ =>
      fun w =>
        (inl (SystemExit ("Fill required constants first: " +:+ join ", " missing)), w)
  | [] =>
      let manager := manager_of c in
      script_bind (when_set (RUN_LIST_BEFORE c) (test_get_inbox_level manager))
        (fun _ =>
      script_bind (when_set (RUN_ADD_IF_NOT_EXISTS c)
                     (test_add_delegate_inbox_reviewer manager (DELEGATE_UPN c)))
        (fun _ =>
      script_bind (when_set (RUN_UPDATE c)
                     (test_update_delegate_inbox manager (DELEGATE_UPN c)
                        (UPDATE_LEVEL c)))
        (fun _ =>
      script_bind (when_set (RUN_ENSURE c)
                     (test_ensure_inbox_reviewer manager (DELEGATE_UPN c)))
        (fun _ =>
      when_set (RUN_LIST_AFTER c) (test_get_inbox_level manager)))))
  end.

(** How many requests [main] can send at most: one for each listing and
    each write that is switched on, two for the reconciliation. *)
Definition request_budget (c : constants) : nat :=
  (if RUN_LIST_BEFORE c then 1 else 0)
  + ((if RUN_ADD_IF_NOT_EXISTS c then 1 else 0)
     + ((if RUN_UPDATE c then 1 else 0)
        + ((if RUN_ENSURE c then 2 else 0)
           + (if RUN_LIST_AFTER c then 1 else 0)))).

(** [m] adds at most [n] requests to the log, each satisfying [P]. *)
Definition sends_within {A : Type} (P : request -> Prop) (n : nat)
    (m : Script A) : Prop :=
  forall w, exists l,
    sent (snd (m w)) = sent w ++ l /\ length l <= n /\ Forall P l.

(** [m] never ends in [SystemExit]. *)
Definition never_exits {A : Type} (m : Script A) : Prop :=
  forall w msg, fst (m w) <> inl (SystemExit msg).

(** [m] always returns a value. *)
Definition returns_normally {A : Type} (m : Script A) : Prop :=
  forall w, exists a, fst (m w) = inr a.

(** The transport answers every request with a reply that passes the
    checks of [_post_ews] and that the parser accepts. *)
Definition always_answers : Prop :=
  forall req s, exists xml root,
    checked_reply (fst (requests_post req s)) = inr xml
    /\ fromstring xml = Some root.

End Harness.

(** ** Further vocabulary *)

(** Sample constants for the harness on the mock mailbox. *)
Definition mock_constants (delegate_upn : string)
    (list_before add update ensure list_after : bool) : constants :=
  {| EWS_URL := ews_url Mock.manager;
     OWNER_UPN := owner_upn Mock.manager;
     OWNER_USERNAME := owner_username Mock.manager;
     OWNER_PASSWORD := owner_password Mock.manager;
     VERIFY_TLS := verify_tls Mock.manager;
     DELEGATE_UPN := delegate_upn;
     UPDATE_LEVEL := "Reviewer";
     RUN_LIST_BEFORE := list_before;
     RUN_ADD_IF_NOT_EXISTS := add;
     RUN_UPDATE := update;
     RUN_ENSURE := ensure;
     RUN_LIST_AFTER := list_after |}.

(** * Properties *)

(** ** Strings *)

Lemma ascii_lower_char_nocase (a b : ascii) :
  PyStr.same_char_nocase a b -> PyStr.ascii_lower_char a = PyStr.ascii_lower_char b.
Proof.
  assert (up : forall x y, PyStr.is_upper x = true ->
                 N_of_ascii y = (N_of_ascii x + 32)%N ->
                 PyStr.ascii_lower_char x = PyStr.ascii_lower_char y).
  { intros x y Hx Hy. unfold PyStr.ascii_lower_char. rewrite Hx.
    assert (PyStr.is_upper y = false) as ->.
    { unfold PyStr.is_upper in *. rewrite Hy.
      apply andb_true_iff in Hx as [Hx%N.leb_le _].
      apply andb_false_iff. right. apply N.leb_gt. lia. }
    rewrite <- Hy. apply ascii_N_embedding. }
  intros [-> | [[Ha Hb] | [Hb Ha]]]; [reflexivity | auto | symmetry; auto].
Qed.

(** [str.lower] on ASCII text does not tell apart two texts that differ
    in ASCII case only. *)
Lemma ascii_lower_ignores_case : PyStr.ignores_ascii_case PyStr.ascii_lower.
Proof.
  intros s t. induction 1 as [|a b s t Hab _ IH]; simpl; [reflexivity|].
  now rewrite (ascii_lower_char_nocase a b Hab), IH.
Qed.

Lemma string_app_nil_r (s : string) : s +:+ "" = s.
Proof.
  induction s as [|c r IH]; [reflexivity|].
  change (String c r +:+ "") with (String c (r +:+ "")). now rewrite IH.
Qed.

Lemma string_app_assoc (s t u : string) : (s +:+ t) +:+ u = s +:+ (t +:+ u).
Proof.
  induction s as [|c r IH]; [reflexivity|].
  change (String c ((r +:+ t) +:+ u) = String c (r +:+ (t +:+ u))).
  now rewrite IH.
Qed.

Lemma truthy_false (s : string) : PyStr.truthy s = false <-> s = "".
Proof. destruct s; simpl; split; congruence. Qed.

(** ** Lists *)

Lemma filter_none {A : Type} (f : A -> bool) (l : list A) :
  (forall x, In x l -> f x = false) -> List.filter f l = [].
Proof.
  induction l as [|x r IH]; intros H; simpl; [reflexivity|].
  rewrite (H x) by now left. apply IH. intros y Hy. apply H. now right.
Qed.

(** ** The scan *)

Lemma scan_found_level_match entries target :
  scan_found_level entries target =
  match scan_match entries target with
  | Some e => snd e
  | None => None
  end.
Proof.
  induction entries as [|[upn level] rest IH]; simpl; [reflexivity|].
  destruct (String.eqb upn target); [reflexivity | exact IH].
Qed.

Lemma scan_found_level_no_entry entries target :
  (forall a lv, In (a, lv) entries -> a <> target) ->
  scan_found_level entries target = None.
Proof.
  induction entries as [|[upn level] rest IH]; intros Hno; simpl; [reflexivity|].
  destruct (String.eqb_spec upn target) as [->|_].
  - exfalso. apply (Hno target level); [now left | reflexivity].
  - apply IH. intros a lv Hin. apply (Hno a lv). now right.
Qed.

Lemma scan_found_level_first pre a lv post target :
  a = target ->
  (forall a' lv', In (a', lv') pre -> a' <> target) ->
  scan_found_level (pre ++ (a, lv) :: post) target = lv.
Proof.
  intros -> Hpre.
  induction pre as [|[upn level] rest IH]; simpl.
  - now rewrite String.eqb_refl.
  - destruct (String.eqb_spec upn target) as [->|_].
    + exfalso. apply (Hpre target level); [now left | reflexivity].
    + apply IH. intros a' lv' Hin. apply (Hpre a' lv'). now right.
Qed.

(** ** What the read emits *)

Lemma delegate_entry_record lower (du : ET.element) :
  delegate_entry lower du = option_list (record_of lower du).
Proof.
  unfold delegate_entry, record_of, address_of, level_of.
  destruct (ET.find_child2 (qname NS_T "UserId") _ du) as [upn|]; simpl;
    [|reflexivity].
  destruct (ET.text upn) as [a|]; simpl; [|reflexivity].
  destruct (PyStr.strip a) eqn:Hs; simpl.
  - reflexivity.
  - destruct (ET.find_child2 _ _ du); reflexivity.
Qed.

(** ** The request bodies are told apart by their operation element *)

Lemma get_body_not_add o d rc vp dm :
  soap_get_delegate o <> soap_add_delegate o d rc vp dm.
Proof. intros H. vm_compute in H. discriminate H. Qed.

Lemma get_body_not_update o d level :
  soap_get_delegate o <> soap_update_delegate o d level.
Proof. intros H. vm_compute in H. discriminate H. Qed.

Lemma add_body_not_update o d rc vp dm d' level :
  soap_add_delegate o d rc vp dm <> soap_update_delegate o d' level.
Proof. intros H. vm_compute in H. discriminate H. Qed.

(** ** Running the operations *)

Section ManagerFacts.

Variable lower : string -> string.
Context {Server : Type}.
Variable requests_post : request -> Server -> option response * Server.
Variable fromstring : string -> option ET.element.
Variable self : EWSDelegationManager.

Abbreviation world := (@world Server).
Abbreviation post_ews := (_post_ews requests_post self).
Abbreviation get := (get_inbox_level lower requests_post fromstring self).
Abbreviation add := (add_delegate_inbox_reviewer requests_post fromstring self).
Abbreviation update := (update_delegate_inbox requests_post fromstring self).
Abbreviation ensure := (ensure_inbox_reviewer lower requests_post fromstring self).
Abbreviation owner := (owner_upn self).

Lemma post_ews_run soap_xml anchor (w : world) :
  post_ews soap_xml anchor w =
  let req := make_request self soap_xml anchor in
  (checked_reply (fst (requests_post req (server w))),
   World (snd (requests_post req (server w))) (sent w ++ [req])).
Proof.
  unfold _post_ews, bind, post, checked_reply, raise_for_status, raise, ret,
  looks_like_html, unauthorized_message, html_message.
  cbv zeta.
  destruct (requests_post _ (server w)) as [[resp|] s']; simpl; [|reflexivity].
  destruct (status_code resp =? 401)%Z; [reflexivity|].
  destruct ((400 <=? status_code resp)%Z && (status_code resp <? 600)%Z);
    [reflexivity|].
  destruct (PyStr.startswith _ "<!DOCTYPE HTML" || PyStr.startswith _ "<html");
    reflexivity.
Qed.

Lemma exchange_run {A : Type} soap_xml anchor (f : ET.element -> A) (w : world) :
  bind (post_ews soap_xml anchor)
    (fun xml => bind (parse fromstring xml) (fun root => ret (f root))) w =
  let req := make_request self soap_xml anchor in
  (exchange_result fromstring f (fst (requests_post req (server w))),
   World (snd (requests_post req (server w))) (sent w ++ [req])).
Proof.
  unfold bind at 1. rewrite post_ews_run. cbv zeta.
  unfold exchange_result.
  destruct (checked_reply _) as [e|xml]; [reflexivity|].
  unfold bind, parse, ret, raise.
  destruct (fromstring xml); reflexivity.
Qed.

Lemma get_run (w : world) :
  get w =
  (exchange_result fromstring (delegates_of_root lower)
     (fst (requests_post (get_request self) (server w))),
   World (snd (requests_post (get_request self) (server w)))
     (sent w ++ [get_request self])).
Proof. apply exchange_run. Qed.

Lemma add_run d rc vp dm (w : world) :
  add d rc vp dm w =
  (exchange_result fromstring add_result
     (fst (requests_post (add_request self d rc vp dm) (server w))),
   World (snd (requests_post (add_request self d rc vp dm) (server w)))
     (sent w ++ [add_request self d rc vp dm])).
Proof. apply exchange_run. Qed.

Lemma update_run d level (w : world) :
  update d level w =
  (exchange_result fromstring update_result
     (fst (requests_post (update_request self d level) (server w))),
   World (snd (requests_post (update_request self d level) (server w)))
     (sent w ++ [update_request self d level])).
Proof. apply exchange_run. Qed.

(** Every operation hands exactly one request to the transport,
    whatever comes back. *)
Lemma get_sent (w : world) : sent (snd (get w)) = sent w ++ [get_request self].
Proof. now rewrite get_run. Qed.

Lemma add_sent d rc vp dm (w : world) :
  sent (snd (add d rc vp dm w)) = sent w ++ [add_request self d rc vp dm].
Proof. now rewrite add_run. Qed.

Lemma update_sent d level (w : world) :
  sent (snd (update d level w)) = sent w ++ [update_request self d level].
Proof. now rewrite update_run. Qed.

(** The outcome of a read depends on the server only, not on the log. *)
Lemma get_same_server (w1 w2 : world) :
  server w1 = server w2 ->
  fst (get w1) = fst (get w2) /\ server (snd (get w1)) = server (snd (get w2)).
Proof. intros H. rewrite !get_run, H. now split. Qed.

Lemma ensure_run d (w : world) :
  ensure d w =
  match get w with
  | (inl e, w1) => (inl e, w1)
  | (inr entries, w1) =>
      match scan_found_level entries (lower d) with
      | None => add d false false default_deliver_meeting w1
      | Some level =>
          if String.eqb level "Reviewer"
          then (inr (true, Some "Already Reviewer"), w1)
          else update d "Reviewer" w1
      end
  end.
Proof.
  unfold ensure_inbox_reviewer, bind at 1.
  destruct (get w) as [[e|entries] w1]; [reflexivity|].
  destruct (scan_found_level entries _) as [level|]; [|reflexivity].
  destruct (String.eqb level "Reviewer"); reflexivity.
Qed.

(** The requests of the three operations are of three kinds. *)
Lemma get_request_kind :
  is_get_call owner (get_request self)
  /\ ~ is_add_call owner (get_request self)
  /\ ~ is_update_call owner (get_request self).
Proof.
  split; [reflexivity|]. split.
  - intros (d & rc & vp & dm & H). exact (get_body_not_add _ _ _ _ _ H).
  - intros (d & level & H). exact (get_body_not_update _ _ _ H).
Qed.

Lemma add_request_kind d rc vp dm :
  is_add_call owner (add_request self d rc vp dm)
  /\ ~ is_get_call owner (add_request self d rc vp dm)
  /\ ~ is_update_call owner (add_request self d rc vp dm).
Proof.
  split; [now exists d, rc, vp, dm|]. split.
  - intros H. apply (get_body_not_add owner d rc vp dm). symmetry. exact H.
  - intros (d' & level & H). exact (add_body_not_update _ _ _ _ _ _ _ H).
Qed.

Lemma update_request_kind d level :
  is_update_call owner (update_request self d level)
  /\ ~ is_get_call owner (update_request self d level)
  /\ ~ is_add_call owner (update_request self d level).
Proof.
  split; [now exists d, level|]. split.
  - intros H. apply (get_body_not_update owner d level). symmetry. exact H.
  - intros (d' & rc & vp & dm & H).
    apply (add_body_not_update owner d' rc vp dm d level). symmetry. exact H.
Qed.

End ManagerFacts.

(** ** The reconciliation *)

Section Reconciliation.

Variable lower : string -> string.
Context {Server : Type}.
Variable requests_post : request -> Server -> option response * Server.
Variable fromstring : string -> option ET.element.
Variable self : EWSDelegationManager.

Abbreviation world := (@world Server).
Abbreviation post_ews := (_post_ews requests_post self).
Abbreviation get := (get_inbox_level lower requests_post fromstring self).
Abbreviation add := (add_delegate_inbox_reviewer requests_post fromstring self).
Abbreviation update := (update_delegate_inbox requests_post fromstring self).
Abbreviation ensure := (ensure_inbox_reviewer lower requests_post fromstring self).
Abbreviation owner := (owner_upn self).
Abbreviation get_req := (get_request self).
Abbreviation add_req := (add_request self).
Abbreviation update_req := (update_request self).

Lemma get_sent_eq (w w1 : world) r :
  get w = (r, w1) -> sent w1 = sent w ++ [get_req].
Proof.
  intros H. rewrite <- (get_sent lower requests_post fromstring self w), H.
  reflexivity.
Qed.

(** The delegate's first entry has a level other than [Reviewer]: the
    reconciliation is the read followed by one [UpdateDelegate]. *)
Lemma ensure_updates_other_level d (w w1 : world) pre a level post :
  get w = (inr (pre ++ (a, Some level) :: post), w1) ->
  a = lower d ->
  (forall a' lv', In (a', lv') pre -> a' <> lower d) ->
  level <> "Reviewer" ->
  ensure d w = update d "Reviewer" w1
  /\ sent (snd (ensure d w)) = sent w ++ [get_req; update_req d "Reviewer"].
Proof.
  intros Hget Ha Hpre Hlevel.
  assert (ensure d w = update d "Reviewer" w1) as Heq.
  { rewrite ensure_run, Hget, (scan_found_level_first _ _ _ _ _ Ha Hpre).
    destruct (String.eqb_spec level "Reviewer"); [contradiction | reflexivity]. }
  split; [exact Heq|].
  rewrite Heq, update_sent, (get_sent_eq _ _ _ Hget), <- app_assoc. reflexivity.
Qed.

(** The delegate's first entry has no inbox level: the scan leaves
    [found_level] at [None], and the reconciliation is the read followed
    by one [AddDelegate]. *)
Lemma ensure_adds_unset_level d (w w1 : world) pre a post :
  get w = (inr (pre ++ (a, None) :: post), w1) ->
  a = lower d ->
  (forall a' lv', In (a', lv') pre -> a' <> lower d) ->
  ensure d w = add d false false default_deliver_meeting w1
  /\ sent (snd (ensure d w))
     = sent w ++ [get_req; add_req d false false default_deliver_meeting].
Proof.
  intros Hget Ha Hpre.
  assert (ensure d w = add d false false default_deliver_meeting w1) as Heq.
  { now rewrite ensure_run, Hget, (scan_found_level_first _ _ _ _ _ Ha Hpre). }
  split; [exact Heq|].
  rewrite Heq, add_sent, (get_sent_eq _ _ _ Hget), <- app_assoc. reflexivity.
Qed.

(** C2. When the read returns a list in which the delegate's entry (the
    first whose address, lower-cased by the read, equals the lower-cased
    target) has level exactly [Reviewer], [ensure_inbox_reviewer] returns
    [(True, "Already Reviewer")] in the world the read left: the only
    request it sent is the [GetDelegate] one, which is neither an
    [AddDelegate] nor an [UpdateDelegate] call. *)
Theorem ensure_keeps_reviewer d (w w1 : world) pre a post :
  get w = (inr (pre ++ (a, Some "Reviewer") :: post), w1) ->
  a = lower d ->
  (forall a' lv', In (a', lv') pre -> a' <> lower d) ->
  ensure d w = (inr (true, Some "Already Reviewer"), w1)
  /\ sent w1 = sent w ++ [get_req]
  /\ ~ is_add_call owner get_req
  /\ ~ is_update_call owner get_req.
Proof.
  intros Hget Ha Hpre. split; [|split].
  - now rewrite ensure_run, Hget, (scan_found_level_first _ _ _ _ _ Ha Hpre).
  - exact (get_sent_eq _ _ _ Hget).
  - apply get_request_kind.
Qed.

(** C3. When the read returns a list in which no entry's address,
    lower-cased by the read, equals the lower-cased target,
    [ensure_inbox_reviewer] is the call of [add_delegate_inbox_reviewer]
    with the default flags in the world the read left, and returns its
    outcome; it sends two requests, the [GetDelegate] one and one
    [AddDelegate] one, and neither is an [UpdateDelegate] call. *)
Theorem ensure_adds_absent_delegate d (w w1 : world) entries :
  get w = (inr entries, w1) ->
  (forall a lv, In (a, lv) entries -> a <> lower d) ->
  ensure d w = add d false false default_deliver_meeting w1
  /\ sent (snd (ensure d w))
     = sent w ++ [get_req; add_req d false false default_deliver_meeting]
  /\ is_add_call owner (add_req d false false default_deliver_meeting)
  /\ ~ is_add_call owner get_req
  /\ ~ is_update_call owner get_req
  /\ ~ is_update_call owner (add_req d false false default_deliver_meeting).
Proof.
  intros Hget Hno.
  assert (ensure d w = add d false false default_deliver_meeting w1) as Heq.
  { now rewrite ensure_run, Hget, (scan_found_level_no_entry _ _ Hno). }
  split; [exact Heq|]. split.
  { rewrite Heq, add_sent, (get_sent_eq _ _ _ Hget), <- app_assoc. reflexivity. }
  pose proof (get_request_kind self) as (_ & ? & ?).
  pose proof (add_request_kind self d false false default_deliver_meeting)
    as (? & _ & ?).
  auto.
Qed.

(** C5. When the [GetDelegate] exchange returns a body that parses and the
    document has no [DelegateUser] element (in particular an error
    response), [get_inbox_level] yields nothing and raises nothing, and
    [ensure_inbox_reviewer] goes on to [add_delegate_inbox_reviewer] as
    it does when no delegate exists. *)
Theorem ensure_adds_after_empty_read d (w w1 : world) xml root :
  post_ews (soap_get_delegate owner) (Some owner) w = (inr xml, w1) ->
  fromstring xml = Some root ->
  (forall e, In e (ET.iter root) -> ET.tag e <> qname NS_T "DelegateUser") ->
  get w = (inr [], w1)
  /\ ensure d w = add d false false default_deliver_meeting w1
  /\ sent (snd (ensure d w))
     = sent w ++ [get_req; add_req d false false default_deliver_meeting].
Proof.
  intros Hpost Hparse Hnone.
  assert (delegates_of_root lower root = []) as Hempty.
  { unfold delegates_of_root, ET.findall_descendants.
    assert (List.filter (ET.has_tag (qname NS_T "DelegateUser"))
              (ET.descendants root) = []) as ->; [|reflexivity].
    apply filter_none. intros e Hin. unfold ET.has_tag.
    apply String.eqb_neq, Hnone.
    destruct root as [t at' x cs]. simpl. right. exact Hin. }
  assert (get w = (inr [], w1)) as Hget.
  { unfold get_inbox_level, bind at 1. rewrite Hpost.
    unfold bind, parse. rewrite Hparse. unfold ret. now rewrite Hempty. }
  split; [exact Hget|].
  assert (ensure d w = add d false false default_deliver_meeting w1) as Heq
    by now rewrite ensure_run, Hget.
  split; [exact Heq|].
  rewrite Heq, add_sent, (get_sent_eq _ _ _ Hget), <- app_assoc. reflexivity.
Qed.

End Reconciliation.

(** ** Two reconciliations in a row *)

Section Idempotence.

Variable lower : string -> string.
Context {Server : Type}.
Variable requests_post : request -> Server -> option response * Server.
Variable fromstring : string -> option ET.element.
Variable self : EWSDelegationManager.
Variable d : string.

Abbreviation world := (@world Server).
Abbreviation get := (get_inbox_level lower requests_post fromstring self).
Abbreviation add := (add_delegate_inbox_reviewer requests_post fromstring self).
Abbreviation update := (update_delegate_inbox requests_post fromstring self).
Abbreviation ensure := (ensure_inbox_reviewer lower requests_post fromstring self).
Abbreviation G := (get_request self).
Abbreviation A := (add_request self d false false default_deliver_meeting).
Abbreviation U := (update_request self d "Reviewer").

Hypothesis stable : stable_reads lower requests_post fromstring self.
Hypothesis add_ok : add_takes_effect lower requests_post fromstring self d.
Hypothesis update_ok : update_takes_effect lower requests_post fromstring self d.

(** Once a read finds the delegate at [Reviewer], the reconciliation is
    that read and nothing else. *)
Lemma ensure_after_reviewer (w : world) :
  reads_reviewer lower requests_post fromstring self d w ->
  exists w', ensure d w = (inr (true, Some "Already Reviewer"), w')
             /\ sent w' = sent w ++ [G].
Proof using Type.
  intros (entries & w' & Hget & Hscan). exists w'. split.
  - now rewrite ensure_run, Hget, Hscan.
  - rewrite <- (get_sent lower requests_post fromstring self w), Hget. reflexivity.
Qed.


End Idempotence.

(** ** Failures of the transport and outcomes of the writes *)

Lemma add_result_contract root :
  write_contract "AddDelegateResponse" "AddDelegate Success" root (add_result root).
Proof.
  unfold write_contract, add_result.
  destruct (ET.find_descendant (qname NS_M "AddDelegateResponse") root) as [r|].
  - destruct (bool_decide_reflect (ET.attrib r !! "ResponseClass" = Some "Success"))
      as [Hc|Hc]; simpl.
    + split; [|split]; [|reflexivity|discriminate].
      split; [eauto | reflexivity].
    + split; [|split]; [|discriminate|reflexivity].
      split; [discriminate|]. intros (r' & [= <-] & Hc'). contradiction.
  - simpl. split; [|split]; [|discriminate|reflexivity].
    split; [discriminate|]. intros (r' & [=] & _).
Qed.

Lemma update_result_contract root :
  write_contract "UpdateDelegateResponse" "UpdateDelegate Success" root
    (update_result root).
Proof.
  unfold write_contract, update_result.
  destruct (ET.find_descendant (qname NS_M "UpdateDelegateResponse") root) as [r|].
  - destruct (bool_decide_reflect (ET.attrib r !! "ResponseClass" = Some "Success"))
      as [Hc|Hc]; simpl.
    + split; [|split]; [|reflexivity|discriminate].
      split; [eauto | reflexivity].
    + split; [|split]; [|discriminate|reflexivity].
      split; [discriminate|]. intros (r' & [= <-] & Hc'). contradiction.
  - simpl. split; [|split]; [|discriminate|reflexivity].
    split; [discriminate|]. intros (r' & [=] & _).
Qed.

Lemma unauthorized_message_contains header :
  PyStr.contains (unauthorized_message header) (format_opt header).
Proof.
  exists "401 Unauthorized. WWW-Authenticate: ", "". unfold unauthorized_message.
  now rewrite string_app_nil_r.
Qed.

Lemma html_message_contains body :
  PyStr.contains (html_message body) (PyStr.take 100 body).
Proof.
  eexists _, "". unfold html_message. now rewrite string_app_nil_r.
Qed.

Lemma messages_differ header body : unauthorized_message header <> html_message body.
Proof. intros H. vm_compute in H. discriminate H. Qed.

Section Transport.

Variable lower : string -> string.
Context {Server : Type}.
Variable requests_post : request -> Server -> option response * Server.
Variable fromstring : string -> option ET.element.
Variable self : EWSDelegationManager.

Abbreviation world := (@world Server).
Abbreviation post_ews := (_post_ews requests_post self).
Abbreviation get := (get_inbox_level lower requests_post fromstring self).
Abbreviation add := (add_delegate_inbox_reviewer requests_post fromstring self).
Abbreviation update := (update_delegate_inbox requests_post fromstring self).
Abbreviation exch := (exchange requests_post fromstring self).
Abbreviation owner := (owner_upn self).

(** The three operations are exchanges. *)
Lemma operations_are_exchanges :
  get = exch (soap_get_delegate owner) (delegates_of_root lower)
  /\ (forall d rc vp dm,
        add d rc vp dm = exch (soap_add_delegate owner d rc vp dm) add_result)
  /\ (forall d level,
        update d level = exch (soap_update_delegate owner d level) update_result).
Proof. repeat split. Qed.

(** C6, as the code has it.  For a reply of the transport to any of the
    operations: status 401 raises a [ValueError] whose message ends with
    the [WWW-Authenticate] header value ([None] when there is none); any
    other status from 400 to 599 raises [HTTPError]; a remaining reply
    (2xx, and also 1xx and 3xx) whose stripped body starts with
    [<!DOCTYPE HTML] or [<html] raises a [ValueError] whose message ends
    with the first 100 characters of the body; a remaining body the
    parser rejects raises [ParseError].  The two [ValueError] messages
    never coincide, so the four failures are pairwise distinct values. *)
Theorem exchange_failures {A : Type} (f : ET.element -> A) soap_xml
    (w : world) resp s' :
  requests_post (make_request self soap_xml (Some owner)) (server w)
    = (Some resp, s') ->
  let w' := World s' (sent w ++ [make_request self soap_xml (Some owner)]) in
  let status := status_code resp in
  let body := resp_text resp in
  (status = 401%Z ->
     exch soap_xml f w
     = (inl (ValueError (unauthorized_message (www_authenticate resp))), w'))
  /\ (status <> 401%Z -> (400 <= status < 600)%Z ->
       exch soap_xml f w = (inl (HTTPError status), w'))
  /\ (status <> 401%Z -> ~ (400 <= status < 600)%Z ->
       looks_like_html body = true ->
       exch soap_xml f w = (inl (ValueError (html_message body)), w'))
  /\ (status <> 401%Z -> ~ (400 <= status < 600)%Z ->
       looks_like_html body = false -> fromstring body = None ->
       exch soap_xml f w = (inl ParseError, w'))
  /\ PyStr.contains (unauthorized_message (www_authenticate resp))
       (format_opt (www_authenticate resp))
  /\ PyStr.contains (html_message body) (PyStr.take 100 body)
  /\ unauthorized_message (www_authenticate resp) <> html_message body.
Proof.
  intros Hreply w' status body.
  assert (exch soap_xml f w = (exchange_result fromstring f (Some resp), w'))
    as Hrun.
  { unfold exchange. rewrite exchange_run. cbv zeta. now rewrite Hreply. }
  rewrite Hrun. unfold exchange_result, checked_reply. fold status body.
  repeat split.
  - intros ->. reflexivity.
  - intros H401 Hrange.
    destruct (Z.eqb_spec status 401); [contradiction|].
    assert ((400 <=? status)%Z && (status <? 600)%Z = true) as ->; [|reflexivity].
    apply andb_true_iff. split; [apply Z.leb_le | apply Z.ltb_lt]; lia.
  - intros H401 Hrange Hhtml.
    destruct (Z.eqb_spec status 401); [contradiction|].
    assert ((400 <=? status)%Z && (status <? 600)%Z = false) as ->.
    { apply not_true_is_false. intros [?%Z.leb_le ?%Z.ltb_lt]%andb_true_iff. lia. }
    now rewrite Hhtml.
  - intros H401 Hrange Hhtml Hparse.
    destruct (Z.eqb_spec status 401); [contradiction|].
    assert ((400 <=? status)%Z && (status <? 600)%Z = false) as ->.
    { apply not_true_is_false. intros [?%Z.leb_le ?%Z.ltb_lt]%andb_true_iff. lia. }
    now rewrite Hhtml, Hparse.
  - apply unauthorized_message_contains.
  - apply html_message_contains.
  - apply messages_differ.
Qed.

(** C7. For a write whose reply passes the transport checks and parses,
    [add_delegate_inbox_reviewer] and [update_delegate_inbox] return
    [True] exactly when the first [AddDelegateResponse] (respectively
    [UpdateDelegateResponse]) element carries [ResponseClass="Success"],
    then with the fixed success message; otherwise they return [False]
    with the text of the first [ResponseCode] element, or [UnknownError]
    when there is none. *)
Theorem write_outcomes :
  (forall d rc vp dm (w w1 : world) xml root,
     post_ews (soap_add_delegate owner d rc vp dm) (Some owner) w = (inr xml, w1) ->
     fromstring xml = Some root ->
     exists o, add d rc vp dm w = (inr o, w1)
               /\ write_contract "AddDelegateResponse" "AddDelegate Success" root o)
  /\ (forall d level (w w1 : world) xml root,
       post_ews (soap_update_delegate owner d level) (Some owner) w = (inr xml, w1) ->
       fromstring xml = Some root ->
       exists o, update d level w = (inr o, w1)
                 /\ write_contract "UpdateDelegateResponse" "UpdateDelegate Success"
                      root o).
Proof.
  split.
  - intros d rc vp dm w w1 xml root Hpost Hparse. exists (add_result root). split.
    + unfold add_delegate_inbox_reviewer, bind at 1. rewrite Hpost.
      unfold bind, parse. now rewrite Hparse.
    + apply add_result_contract.
  - intros d level w w1 xml root Hpost Hparse. exists (update_result root). split.
    + unfold update_delegate_inbox, bind at 1. rewrite Hpost.
      unfold bind, parse. now rewrite Hparse.
    + apply update_result_contract.
Qed.

End Transport.

(** ** The read: records, order and case *)

Lemma flat_map_option_list {A B : Type} (f : A -> option B) (l : list A) :
  flat_map (fun x => option_list (f x)) l = omap f l.
Proof.
  induction l as [|x r IH]; simpl; [reflexivity|].
  rewrite IH. destruct (f x); reflexivity.
Qed.

Lemma delegates_of_root_records lower root :
  delegates_of_root lower root
  = omap (record_of lower)
      (ET.findall_descendants (qname NS_T "DelegateUser") root).
Proof.
  unfold delegates_of_root. rewrite <- flat_map_option_list.
  apply flat_map_ext. intros du. apply delegate_entry_record.
Qed.

(** An entry whose address element or text is missing, or whose address
    is empty or blank, gives no record. *)
Lemma record_of_skipped lower du :
  address_of du = None \/ (exists a, address_of du = Some a /\ PyStr.strip a = "") ->
  record_of lower du = None.
Proof.
  unfold record_of. intros [-> | (a & -> & Ha)]; [reflexivity|].
  now rewrite bool_decide_eq_true_2.
Qed.

(** C8. [get_inbox_level] yields, for the [DelegateUser] elements of the
    response in document order, the record of each: none for an entry
    whose primary address is missing or empty, else the lower-cased
    address with the inbox level or [None].  On the response with
    [a@x.com] at level [Reviewer] and [b@x.com] without an inbox level it
    yields exactly [("a@x.com", "Reviewer"); ("b@x.com", None)]; on the
    response with five entries it lower-cases the two addresses it keeps
    and skips the entries without an address, with an empty address and
    with a blank one. *)
Theorem get_inbox_level_records :
  (forall lower root,
     delegates_of_root lower root
     = omap (record_of lower)
         (ET.findall_descendants (qname NS_T "DelegateUser") root))
  /\ delegates_of_root Mock.lower (Mock.get_response Mock.two_delegates)
     = [("a@x.com", Some "Reviewer"); ("b@x.com", None)]
  /\ get_inbox_level Mock.lower
       (Mock.constant_post (Mock.ok (Mock.get_response_text Mock.two_delegates)))
       Mock.fromstring Mock.manager (World tt [])
     = (inr [("a@x.com", Some "Reviewer"); ("b@x.com", None)],
        World tt [get_request Mock.manager])
  /\ delegates_of_root Mock.lower Mock.mixed_response
     = [("john@example.com", Some "Reviewer"); ("jörg@x.com", Some "Author")]
  /\ get_inbox_level Mock.lower
       (Mock.constant_post (Mock.ok Mock.mixed_response_text))
       Mock.mixed_fromstring Mock.manager (World tt [])
     = (inr [("john@example.com", Some "Reviewer"); ("jörg@x.com", Some "Author")],
        World tt [get_request Mock.manager]).
Proof.
  split; [exact delegates_of_root_records|]. repeat split; vm_compute; reflexivity.
Qed.

Lemma scan_found_level_in entries target lv0 :
  In (target, lv0) entries ->
  exists lv, In (target, lv) entries /\ scan_found_level entries target = lv.
Proof.
  induction entries as [|[upn level] rest IH]; intros Hin; [destruct Hin|].
  simpl. destruct (String.eqb_spec upn target) as [->|Hne].
  - exists level. split; [now left | reflexivity].
  - destruct Hin as [[= E _]|Hin]; [contradiction|].
    destruct (IH Hin) as (lv & Hlv & Hscan). exists lv. split; [now right | exact Hscan].
Qed.

Section CaseInsensitive.

Variable lower : string -> string.
Context {Server : Type}.
Variable requests_post : request -> Server -> option response * Server.
Variable fromstring : string -> option ET.element.
Variable self : EWSDelegationManager.

Abbreviation world := (@world Server).
Abbreviation post_ews := (_post_ews requests_post self).
Abbreviation add := (add_delegate_inbox_reviewer requests_post fromstring self).
Abbreviation update := (update_delegate_inbox requests_post fromstring self).
Abbreviation ensure := (ensure_inbox_reviewer lower requests_post fromstring self).
Abbreviation owner := (owner_upn self).

(** C9. Matching in [ensure_inbox_reviewer] is case-insensitive.  When
    the response holds a [DelegateUser] whose stored address equals the
    target up to ASCII case, the read emits that address lower-cased, the
    scan compares it with the lower-cased target and stops at an entry
    for the target: [found_level] is the level of such an entry (the
    level of this one when the target has no other entry), and
    [ensure_inbox_reviewer] acts on that level. *)
Theorem scan_ignores_case d (w w1 : world) xml root du a :
  PyStr.ignores_ascii_case lower ->
  post_ews (soap_get_delegate owner) (Some owner) w = (inr xml, w1) ->
  fromstring xml = Some root ->
  In du (ET.findall_descendants (qname NS_T "DelegateUser") root) ->
  address_of du = Some a ->
  PyStr.strip a <> "" ->
  PyStr.eq_nocase a d ->
  exists lv,
    In (lower d, lv) (delegates_of_root lower root)
    /\ scan_found_level (delegates_of_root lower root) (lower d) = lv
    /\ ((forall lv', In (lower d, lv') (delegates_of_root lower root) ->
         lv' = level_of du) -> lv = level_of du)
    /\ ensure d w
       = match lv with
         | None => add d false false default_deliver_meeting w1
         | Some level =>
             if String.eqb level "Reviewer"
             then (inr (true, Some "Already Reviewer"), w1)
             else update d "Reviewer" w1
         end.
Proof.
  intros Hlaw Hpost Hparse Hdu Ha Hstrip Hcase.
  assert (In (lower d, level_of du) (delegates_of_root lower root)) as Hin.
  { unfold delegates_of_root. apply in_flat_map. exists du. split; [exact Hdu|].
    rewrite delegate_entry_record. unfold record_of. rewrite Ha.
    rewrite bool_decide_eq_false_2 by exact Hstrip.
    rewrite (Hlaw a d Hcase). now left. }
  destruct (scan_found_level_in _ _ _ Hin) as (lv & Hlv & Hscan).
  exists lv. split; [exact Hlv|]. split; [exact Hscan|]. split; [auto|].
  rewrite ensure_run.
  assert (get_inbox_level lower requests_post fromstring self w
          = (inr (delegates_of_root lower root), w1)) as ->.
  { unfold get_inbox_level, bind at 1. rewrite Hpost.
    unfold bind, parse. now rewrite Hparse. }
  now rewrite Hscan.
Qed.

End CaseInsensitive.

(** ** The request builders *)

Ltac focus_on s :=
  repeat lazymatch goal with
    | |- s +:+ _ = _ => fail
    | |- _ +:+ (s +:+ _) = _ => fail
    | |- ?x +:+ (?y +:+ ?z) = _ => rewrite <- (string_app_assoc x y z)
    end.

Ltac verbatim body :=
  unfold verbatim_in; eexists _, _; intros s; unfold body; focus_on s; reflexivity.

Lemma get_owner_verbatim : verbatim_in soap_get_delegate.
Proof. verbatim soap_get_delegate. Qed.

Lemma add_owner_verbatim d rc vp dm :
  verbatim_in (fun o => soap_add_delegate o d rc vp dm).
Proof. verbatim soap_add_delegate. Qed.

Lemma add_delegate_verbatim o rc vp dm :
  verbatim_in (fun d => soap_add_delegate o d rc vp dm).
Proof. verbatim soap_add_delegate. Qed.

Lemma add_deliver_verbatim o d rc vp :
  verbatim_in (fun dm => soap_add_delegate o d rc vp dm).
Proof. verbatim soap_add_delegate. Qed.

Lemma update_owner_verbatim d level :
  verbatim_in (fun o => soap_update_delegate o d level).
Proof. verbatim soap_update_delegate. Qed.

Lemma update_delegate_verbatim o level :
  verbatim_in (fun d => soap_update_delegate o d level).
Proof. verbatim soap_update_delegate. Qed.

Lemma update_level_verbatim o d :
  verbatim_in (fun level => soap_update_delegate o d level).
Proof. verbatim soap_update_delegate. Qed.

Lemma verbatim_contains build s : verbatim_in build -> PyStr.contains (build s) s.
Proof. intros (pre & post & H). exists pre, post. apply H. Qed.

(** C10. The builders put the owner address, the delegate address, the
    permission level and the meeting delivery policy into the body as
    they are, between a fixed prefix and a fixed suffix, so every body
    contains them character for character; with the address [<] the
    bodies fail the lexical condition of well-formed XML, while with
    plain addresses they meet it. *)
Theorem builders_do_not_escape :
  verbatim_in soap_get_delegate
  /\ (forall o d rc vp dm,
        verbatim_in (fun x => soap_add_delegate x d rc vp dm)
        /\ verbatim_in (fun x => soap_add_delegate o x rc vp dm)
        /\ verbatim_in (fun x => soap_add_delegate o d rc vp x))
  /\ (forall o d level,
        verbatim_in (fun x => soap_update_delegate x d level)
        /\ verbatim_in (fun x => soap_update_delegate o x level)
        /\ verbatim_in (fun x => soap_update_delegate o d x))
  /\ (forall o d rc vp dm level,
        PyStr.contains (soap_get_delegate o) o
        /\ PyStr.contains (soap_add_delegate o d rc vp dm) o
        /\ PyStr.contains (soap_add_delegate o d rc vp dm) d
        /\ PyStr.contains (soap_add_delegate o d rc vp dm) dm
        /\ PyStr.contains (soap_update_delegate o d level) o
        /\ PyStr.contains (soap_update_delegate o d level) d
        /\ PyStr.contains (soap_update_delegate o d level) level)
  /\ XmlLex.lexically_ok (soap_get_delegate "<") = false
  /\ XmlLex.lexically_ok
       (soap_add_delegate "owner@example.com" "<" false false default_deliver_meeting)
     = false
  /\ XmlLex.lexically_ok (soap_update_delegate "owner@example.com" "<" "Reviewer")
     = false
  /\ XmlLex.lexically_ok
       (soap_add_delegate "owner@example.com" "d@example.com" false false
          default_deliver_meeting)
     = true.
Proof.
  split; [exact get_owner_verbatim|].
  split; [intros; auto using add_owner_verbatim, add_delegate_verbatim,
            add_deliver_verbatim|].
  split; [intros; auto using update_owner_verbatim, update_delegate_verbatim,
            update_level_verbatim|].
  split.
  { intros o d rc vp dm level. repeat split.
    - apply (verbatim_contains soap_get_delegate), get_owner_verbatim.
    - apply (verbatim_contains (fun x => soap_add_delegate x d rc vp dm)),
        add_owner_verbatim.
    - apply (verbatim_contains (fun x => soap_add_delegate o x rc vp dm)),
        add_delegate_verbatim.
    - apply (verbatim_contains (fun x => soap_add_delegate o d rc vp x)),
        add_deliver_verbatim.
    - apply (verbatim_contains (fun x => soap_update_delegate x d level)),
        update_owner_verbatim.
    - apply (verbatim_contains (fun x => soap_update_delegate o x level)),
        update_delegate_verbatim.
    - apply (verbatim_contains (fun x => soap_update_delegate o d x)),
        update_level_verbatim. }
  repeat split; vm_compute; reflexivity.
Qed.

(** ** The operations on the mock server *)

Ltac same_letters :=
  repeat (constructor;
          [first [ left; reflexivity
                 | right; left; split; reflexivity
                 | right; right; split; reflexivity ] |]);
  constructor.

Ltac by_computation := vm_compute; reflexivity.

(** C1, at the input where the code departs from it.  The delegate exists
    on the server without an inbox level: the read reports it with level
    [None], the scan leaves [found_level] at [None], and
    [ensure_inbox_reviewer] sends [AddDelegate], not [UpdateDelegate];
    the server answers that the delegate already exists. *)
Theorem ensure_unset_level_sends_add :
  get_inbox_level Mock.lower (Mock.requests_post true) Mock.fromstring Mock.manager
    (World Mock.Unset [])
  = (inr [("john@example.com", None)], World Mock.Unset [get_request Mock.manager])
  /\ ensure_inbox_reviewer Mock.lower (Mock.requests_post true) Mock.fromstring Mock.manager
       Mock.delegate (World Mock.Unset [])
     = (inr (false, Some "ErrorDelegateAlreadyExists"),
        World Mock.Unset
          [get_request Mock.manager;
           add_request Mock.manager Mock.delegate false false default_deliver_meeting])
  /\ ~ is_update_call (owner_upn Mock.manager)
        (add_request Mock.manager Mock.delegate false false default_deliver_meeting).
Proof.
  split; [by_computation|]. split; [by_computation|].
  apply add_request_kind.
Qed.

(** The call leaves that server as it found it, so a second call sends
    the same [AddDelegate] and fails in the same way. *)
Example ensure_unset_level_repeats :
  ensure_inbox_reviewer Mock.lower (Mock.requests_post true) Mock.fromstring Mock.manager
    Mock.delegate
    (snd (ensure_inbox_reviewer Mock.lower (Mock.requests_post true) Mock.fromstring
            Mock.manager Mock.delegate (World Mock.Unset [])))
  = (inr (false, Some "ErrorDelegateAlreadyExists"),
     World Mock.Unset
       [get_request Mock.manager;
        add_request Mock.manager Mock.delegate false false default_deliver_meeting;
        get_request Mock.manager;
        add_request Mock.manager Mock.delegate false false default_deliver_meeting]).
Proof. by_computation. Qed.

(** With a level other than [Reviewer] the same call sends
    [UpdateDelegate]. *)
Example ensure_author_sends_update :
  ensure_inbox_reviewer Mock.lower (Mock.requests_post true) Mock.fromstring Mock.manager
    Mock.delegate (World Mock.Author [])
  = (inr (true, Some "UpdateDelegate Success"),
     World Mock.Reviewer
       [get_request Mock.manager;
        update_request Mock.manager Mock.delegate "Reviewer"]).
Proof. by_computation. Qed.

Lemma ensure_keeps_reviewer_witness :
  ensure_inbox_reviewer Mock.lower (Mock.requests_post true) Mock.fromstring Mock.manager
    "John@Example.COM" (World Mock.Reviewer [])
  = (inr (true, Some "Already Reviewer"),
     World Mock.Reviewer [get_request Mock.manager])
  /\ sent (World Mock.Reviewer [get_request Mock.manager])
     = [] ++ [get_request Mock.manager]
  /\ ~ is_add_call (owner_upn Mock.manager) (get_request Mock.manager)
  /\ ~ is_update_call (owner_upn Mock.manager) (get_request Mock.manager).
Proof.
  apply (ensure_keeps_reviewer Mock.lower (Mock.requests_post true) Mock.fromstring
           Mock.manager "John@Example.COM" (World Mock.Reviewer []) _
           [] "john@example.com" []).
  - by_computation.
  - reflexivity.
  - intros a' lv' [].
Defined.

Lemma ensure_adds_absent_delegate_witness :
  let post := Mock.constant_post (Mock.ok (Mock.get_response_text Mock.two_delegates)) in
  ensure_inbox_reviewer Mock.lower post Mock.fromstring Mock.manager
    "Mary@Example.com" (World tt [])
  = add_delegate_inbox_reviewer post Mock.fromstring
      Mock.manager "Mary@Example.com" false false default_deliver_meeting
      (World tt [get_request Mock.manager])
  /\ sent (snd (ensure_inbox_reviewer Mock.lower post Mock.fromstring
                  Mock.manager "Mary@Example.com" (World tt [])))
     = [] ++ [get_request Mock.manager;
              add_request Mock.manager "Mary@Example.com" false false
                default_deliver_meeting]
  /\ is_add_call (owner_upn Mock.manager)
       (add_request Mock.manager "Mary@Example.com" false false
          default_deliver_meeting)
  /\ ~ is_add_call (owner_upn Mock.manager) (get_request Mock.manager)
  /\ ~ is_update_call (owner_upn Mock.manager) (get_request Mock.manager)
  /\ ~ is_update_call (owner_upn Mock.manager)
        (add_request Mock.manager "Mary@Example.com" false false
           default_deliver_meeting).
Proof.
  cbv zeta.
  apply (ensure_adds_absent_delegate Mock.lower
           (Mock.constant_post (Mock.ok (Mock.get_response_text Mock.two_delegates)))
           Mock.fromstring Mock.manager "Mary@Example.com" (World tt []) _
           [("a@x.com", Some "Reviewer"); ("b@x.com", None)]).
  - by_computation.
  - intros a lv [[= <- _]|[[= <- _]|[]]] Hsame; vm_compute in Hsame; discriminate Hsame.
Defined.

Lemma ensure_adds_after_empty_read_witness :
  get_inbox_level Mock.lower (Mock.constant_post (Mock.ok Mock.get_error_response_text))
    Mock.fromstring Mock.manager (World tt [])
  = (inr [], World tt [get_request Mock.manager])
  /\ ensure_inbox_reviewer Mock.lower (Mock.constant_post (Mock.ok Mock.get_error_response_text))
       Mock.fromstring Mock.manager Mock.delegate (World tt [])
     = add_delegate_inbox_reviewer
         (Mock.constant_post (Mock.ok Mock.get_error_response_text))
         Mock.fromstring Mock.manager Mock.delegate false false
         default_deliver_meeting (World tt [get_request Mock.manager])
  /\ sent (snd (ensure_inbox_reviewer Mock.lower
                  (Mock.constant_post (Mock.ok Mock.get_error_response_text))
                  Mock.fromstring Mock.manager Mock.delegate (World tt [])))
     = [] ++ [get_request Mock.manager;
              add_request Mock.manager Mock.delegate false false
                default_deliver_meeting].
Proof.
  apply (ensure_adds_after_empty_read Mock.lower
           (Mock.constant_post (Mock.ok Mock.get_error_response_text))
           Mock.fromstring Mock.manager Mock.delegate (World tt []) _
           Mock.get_error_response_text Mock.get_error_response).
  - by_computation.
  - by_computation.
  - intros e Hin. apply String.eqb_neq.
    vm_compute in Hin.
    repeat (destruct Hin as [<-|Hin]; [by_computation|]). destruct Hin.
Defined.


(** C6, where the code departs from it: a reply with status 302 (the
    request does not follow redirects) is neither 2xx nor 401, and no
    exception is raised; the read goes on with the body. *)
Lemma redirect_reply_not_raised :
  let resp := {| status_code := 302; www_authenticate := None;
                 resp_text := Mock.get_response_text Mock.two_delegates |} in
  ~ (200 <= status_code resp < 300)%Z
  /\ status_code resp <> 401%Z
  /\ _post_ews (Mock.constant_post (Some resp)) Mock.manager
       (soap_get_delegate (owner_upn Mock.manager)) (Some (owner_upn Mock.manager))
       (World tt [])
     = (inr (resp_text resp), World tt [get_request Mock.manager])
  /\ get_inbox_level Mock.lower (Mock.constant_post (Some resp)) Mock.fromstring Mock.manager
       (World tt [])
     = (inr [("a@x.com", Some "Reviewer"); ("b@x.com", None)],
        World tt [get_request Mock.manager]).
Proof.
  cbv zeta. split; [simpl; lia|]. split; [discriminate|].
  split; by_computation.
Qed.

Lemma exchange_failures_witness :
  let run resp :=
    exchange (Mock.constant_post (Some resp)) Mock.fromstring Mock.manager
      (soap_get_delegate (owner_upn Mock.manager))
      (delegates_of_root Mock.lower) (World tt []) in
  let w' := World tt [get_request Mock.manager] in
  let page := Mock.nbsp +:+ "<html><body>Zugang gesperrt für Jörg</body></html>" in
  run {| status_code := 401; www_authenticate := Some "NTLM"; resp_text := "" |}
  = (inl (ValueError "401 Unauthorized. WWW-Authenticate: NTLM"), w')
  /\ run {| status_code := 503; www_authenticate := None;
            resp_text := "<html>Service Unavailable</html>" |}
     = (inl (HTTPError 503), w')
  /\ run {| status_code := 200; www_authenticate := None;
            resp_text := "  <html><body>Sign in</body></html>" |}
     = (inl (ValueError (html_message "  <html><body>Sign in</body></html>")), w')
  /\ run {| status_code := 200; www_authenticate := None; resp_text := page |}
     = (inl (ValueError (html_message page)), w')
  /\ run {| status_code := 200; www_authenticate := None;
            resp_text := "<s:Envelope>" |}
     = (inl ParseError, w').
Proof.
  cbv zeta.
  pose proof (fun resp =>
    exchange_failures (Mock.constant_post (Some resp)) Mock.fromstring Mock.manager
      (delegates_of_root Mock.lower) (soap_get_delegate (owner_upn Mock.manager))
      (World tt []) resp tt eq_refl) as H.
  cbv zeta in H.
  split; [|split; [|split; [|split]]].
  - apply (H {| status_code := 401; www_authenticate := Some "NTLM";
                resp_text := "" |}). reflexivity.
  - apply (H {| status_code := 503; www_authenticate := None;
                resp_text := "<html>Service Unavailable</html>" |});
      simpl; [discriminate | lia].
  - apply (H {| status_code := 200; www_authenticate := None;
                resp_text := "  <html><body>Sign in</body></html>" |});
      simpl; [discriminate | lia | by_computation].
  - apply (H {| status_code := 200; www_authenticate := None;
                resp_text :=
                  Mock.nbsp +:+ "<html><body>Zugang gesperrt für Jörg</body></html>" |});
      simpl; [discriminate | lia | by_computation].
  - apply (H {| status_code := 200; www_authenticate := None;
                resp_text := "<s:Envelope>" |});
      simpl; [discriminate | lia | by_computation | by_computation].
Defined.

Lemma write_outcomes_witness :
  (exists o,
     add_delegate_inbox_reviewer (Mock.requests_post true) Mock.fromstring
       Mock.manager Mock.delegate false false default_deliver_meeting
       (World Mock.Absent [])
     = (inr o,
        World Mock.Reviewer
          [add_request Mock.manager Mock.delegate false false
             default_deliver_meeting])
     /\ write_contract "AddDelegateResponse" "AddDelegate Success"
          (Mock.write_success "AddDelegate") o)
  /\ (exists o,
       update_delegate_inbox (Mock.requests_post true) Mock.fromstring Mock.manager
         Mock.delegate "Reviewer" (World Mock.Absent [])
       = (inr o,
          World Mock.Absent [update_request Mock.manager Mock.delegate "Reviewer"])
       /\ write_contract "UpdateDelegateResponse" "UpdateDelegate Success"
            (Mock.write_failure "UpdateDelegate" "ErrorDelegateNoUser") o).
Proof.
  split.
  - apply (proj1 (write_outcomes (Mock.requests_post true) Mock.fromstring
                    Mock.manager)
             Mock.delegate false false default_deliver_meeting
             (World Mock.Absent []) _ (Mock.write_success_text "AddDelegate"));
      by_computation.
  - apply (proj2 (write_outcomes (Mock.requests_post true) Mock.fromstring
                    Mock.manager)
             Mock.delegate "Reviewer" (World Mock.Absent []) _
             (Mock.write_failure_text "UpdateDelegate" "ErrorDelegateNoUser"));
      by_computation.
Defined.

Lemma scan_ignores_case_witness :
  let root := Mock.get_response (Mock.entries_of Mock.Author) in
  let du := Mock.delegate_user "John@Example.com" (Some "Author") in
  exists lv,
    In (PyStr.ascii_lower "JOHN@example.COM", lv)
      (delegates_of_root PyStr.ascii_lower root)
    /\ scan_found_level (delegates_of_root PyStr.ascii_lower root)
         (PyStr.ascii_lower "JOHN@example.COM") = lv
    /\ ((forall lv', In (PyStr.ascii_lower "JOHN@example.COM", lv')
                       (delegates_of_root PyStr.ascii_lower root) ->
         lv' = level_of du) -> lv = level_of du)
    /\ ensure_inbox_reviewer PyStr.ascii_lower (Mock.requests_post true)
         Mock.fromstring Mock.manager "JOHN@example.COM" (World Mock.Author [])
       = match lv with
         | None =>
             add_delegate_inbox_reviewer (Mock.requests_post true) Mock.fromstring
               Mock.manager "JOHN@example.COM" false false default_deliver_meeting
               (World Mock.Author [get_request Mock.manager])
         | Some level =>
             if String.eqb level "Reviewer"
             then (inr (true, Some "Already Reviewer"),
                   World Mock.Author [get_request Mock.manager])
             else update_delegate_inbox (Mock.requests_post true) Mock.fromstring
                    Mock.manager "JOHN@example.COM" "Reviewer"
                    (World Mock.Author [get_request Mock.manager])
         end.
Proof.
  cbv zeta.
  apply (scan_ignores_case PyStr.ascii_lower (Mock.requests_post true)
           Mock.fromstring Mock.manager "JOHN@example.COM" (World Mock.Author [])
           (World Mock.Author [get_request Mock.manager])
           (Mock.get_response_text (Mock.entries_of Mock.Author))
           (Mock.get_response (Mock.entries_of Mock.Author))
           (Mock.delegate_user "John@Example.com" (Some "Author"))
           "John@Example.com").
  - exact ascii_lower_ignores_case.
  - by_computation.
  - by_computation.
  - vm_compute. left. reflexivity.
  - by_computation.
  - intros H. vm_compute in H. discriminate H.
  - same_letters.
Defined.

(** The same scan where the capitals are not ASCII: the response stores
    [JÖRG@x.com] with level [Author], the call names [Jörg@X.com]; the
    read emits [jörg@x.com], the scan finds level [Author] and the call
    sends [UpdateDelegate]. *)
Example ensure_matches_non_ascii_capitals :
  let post := Mock.constant_post (Mock.ok Mock.mixed_response_text) in
  Mock.lower "JÖRG@x.com" = "jörg@x.com"
  /\ Mock.lower "Jörg@X.com" = "jörg@x.com"
  /\ scan_found_level [("jörg@x.com", Some "Author")] (Mock.lower "JÖRG@x.com")
     = Some "Author"
  /\ get_inbox_level Mock.lower post Mock.mixed_fromstring Mock.manager (World tt [])
     = (inr [("john@example.com", Some "Reviewer"); ("jörg@x.com", Some "Author")],
        World tt [get_request Mock.manager])
  /\ sent (snd (ensure_inbox_reviewer Mock.lower post Mock.mixed_fromstring
                  Mock.manager "Jörg@X.com" (World tt [])))
     = [get_request Mock.manager;
        update_request Mock.manager "Jörg@X.com" "Reviewer"]
  /\ ensure_inbox_reviewer Mock.lower post Mock.mixed_fromstring Mock.manager
       "JOHN@EXAMPLE.COM" (World tt [])
     = (inr (true, Some "Already Reviewer"), World tt [get_request Mock.manager]).
Proof. cbv zeta. repeat split; by_computation. Qed.

(** Text as the code slices and trims it: characters, not bytes, and
    every white-space character of [str.strip]. *)
Example text_by_characters :
  String.length "é" = 2
  /\ PyStr.take 4 "hééllo" = "héél"
  /\ PyStr.take 100 (Mock.replicate 120 "é") = Mock.replicate 100 "é"
  /\ html_message ("<html>" +:+ Mock.replicate 120 "é")
     = "Received HTML response instead of XML. This typically indicates an "
       +:+ "authentication issue or incorrect EWS URL. Check your credentials "
       +:+ "and URL. First 100 chars: <html>" +:+ Mock.replicate 94 "é"
  /\ PyStr.strip (Mock.nbsp +:+ "  x y " +:+ Mock.nbsp) = "x y"
  /\ PyStr.strip Mock.nbsp = ""
  /\ looks_like_html (Mock.nbsp +:+ "<html>x</html>") = true
  /\ looks_like_html "x<html>" = false.
Proof. repeat split; by_computation. Qed.

(** * Further properties of the code *)

(** ** White space and case *)

Lemma string_app_cons c (r s : string) : String c r +:+ s = String c (r +:+ s).
Proof. reflexivity. Qed.

Lemma string_length_app (s t : string) :
  String.length (s +:+ t) = String.length s + String.length t.
Proof.
  induction s as [|c r IH]; [reflexivity|].
  rewrite string_app_cons. simpl. now rewrite IH.
Qed.

Lemma string_app_cancel_r (s s' t : string) : s +:+ t = s' +:+ t -> s = s'.
Proof.
  revert s'. induction s as [|c r IH]; intros [|c' r'] H.
  - reflexivity.
  - apply (f_equal String.length) in H.
    rewrite !string_length_app in H. simpl in H. lia.
  - apply (f_equal String.length) in H.
    rewrite !string_length_app in H. simpl in H. lia.
  - rewrite !string_app_cons in H. injection H as -> H. f_equal. now apply IH.
Qed.

Lemma string_length_ind (P : string -> Prop) :
  (forall s, (forall t, String.length t < String.length s -> P t) -> P s) ->
  forall s, P s.
Proof.
  intros step s. apply step.
  induction (String.length s) as [|n IH]; intros t Ht; [lia|].
  apply step. intros u Hu. apply IH. lia.
Qed.

(** The three steps of [lstrip_with]. *)
Lemma lstrip_with_1 w1 w2 w3 c1 r :
  w1 c1 = true ->
  PyStr.lstrip_with w1 w2 w3 (String c1 r) = PyStr.lstrip_with w1 w2 w3 r.
Proof. intros H. cbn [PyStr.lstrip_with]. now rewrite H. Qed.

Lemma lstrip_with_2 w1 w2 w3 c1 c2 r :
  w1 c1 = false -> w2 c1 c2 = true ->
  PyStr.lstrip_with w1 w2 w3 (String c1 (String c2 r))
  = PyStr.lstrip_with w1 w2 w3 r.
Proof. intros H1 H2. cbn [PyStr.lstrip_with]. now rewrite H1, H2. Qed.

Lemma lstrip_with_3 w1 w2 w3 c1 c2 c3 r :
  w1 c1 = false -> w2 c1 c2 = false -> w3 c1 c2 c3 = true ->
  PyStr.lstrip_with w1 w2 w3 (String c1 (String c2 (String c3 r)))
  = PyStr.lstrip_with w1 w2 w3 r.
Proof. intros H1 H2 H3. cbn [PyStr.lstrip_with]. now rewrite H1, H2, H3. Qed.

(** White space in front of a text does not change what [lstrip] leaves. *)
Lemma lstrip_leading_space (ws s : string) :
  PyStr.all_space ws = true -> PyStr.lstrip (ws +:+ s) = PyStr.lstrip s.
Proof.
  unfold PyStr.lstrip.
  induction ws as [ws IH] using string_length_ind. intros H.
  destruct ws as [|c1 r1]; [reflexivity|].
  cbn [PyStr.all_space] in H. rewrite string_app_cons.
  destruct (PyStr.space1 c1) eqn:H1.
  { rewrite lstrip_with_1 by exact H1. apply IH; [simpl; lia | exact H]. }
  destruct r1 as [|c2 r2]; [discriminate H|]. rewrite string_app_cons.
  destruct (PyStr.space2 c1 c2) eqn:H2.
  { rewrite lstrip_with_2 by assumption. apply IH; [simpl; lia | exact H]. }
  destruct r2 as [|c3 r3]; [discriminate H|]. rewrite string_app_cons.
  destruct (PyStr.space3 c1 c2 c3) eqn:H3; [|discriminate H].
  rewrite lstrip_with_3 by assumption. apply IH; [simpl; lia | exact H].
Qed.

(** [ascii_lower] moves the capitals [A]..[Z] and nothing else, so it
    leaves white space, of whatever length of encoding, as it is. *)
Lemma N_of_ascii_lower_char (c : ascii) :
  PyStr.is_upper c = true ->
  N_of_ascii (PyStr.ascii_lower_char c) = (N_of_ascii c + 32)%N.
Proof.
  intros H. unfold PyStr.ascii_lower_char. rewrite H.
  apply N_ascii_embedding. unfold PyStr.is_upper in H.
  apply andb_true_iff in H as [_ H%N.leb_le]. lia.
Qed.

Lemma byte_is_lower_char k (c : ascii) :
  (123 <= k)%N -> PyStr.byte_is k (PyStr.ascii_lower_char c) = PyStr.byte_is k c.
Proof.
  intros Hk. destruct (PyStr.is_upper c) eqn:E.
  - unfold PyStr.byte_is. rewrite (N_of_ascii_lower_char c E).
    unfold PyStr.is_upper in E.
    apply andb_true_iff in E as [_ E%N.leb_le].
    rewrite !(proj2 (N.eqb_neq _ _)) by lia. reflexivity.
  - unfold PyStr.ascii_lower_char. now rewrite E.
Qed.

Lemma byte_in_lower_char lo hi (c : ascii) :
  (hi < 65 \/ 123 <= lo)%N ->
  PyStr.byte_in lo hi (PyStr.ascii_lower_char c) = PyStr.byte_in lo hi c.
Proof.
  intros Hk. destruct (PyStr.is_upper c) eqn:E.
  - unfold PyStr.byte_in. rewrite (N_of_ascii_lower_char c E).
    unfold PyStr.is_upper in E.
    apply andb_true_iff in E as [E1%N.leb_le E2%N.leb_le].
    transitivity false; [|symmetry]; apply andb_false_iff;
      destruct Hk; [right | left | right | left]; apply N.leb_gt; lia.
  - unfold PyStr.ascii_lower_char. now rewrite E.
Qed.

Lemma space1_lower_char c :
  PyStr.space1 (PyStr.ascii_lower_char c) = PyStr.space1 c.
Proof. unfold PyStr.space1. now rewrite !byte_in_lower_char by lia. Qed.

Lemma space2_lower_char c1 c2 :
  PyStr.space2 (PyStr.ascii_lower_char c1) (PyStr.ascii_lower_char c2)
  = PyStr.space2 c1 c2.
Proof. unfold PyStr.space2. now rewrite !byte_is_lower_char by lia. Qed.

Lemma space3_lower_char c1 c2 c3 :
  PyStr.space3 (PyStr.ascii_lower_char c1) (PyStr.ascii_lower_char c2)
    (PyStr.ascii_lower_char c3)
  = PyStr.space3 c1 c2 c3.
Proof.
  unfold PyStr.space3.
  now rewrite !byte_is_lower_char, !byte_in_lower_char by lia.
Qed.

Lemma lstrip_with_ascii_lower w1 w2 w3 (s : string) :
  (forall c, w1 (PyStr.ascii_lower_char c) = w1 c) ->
  (forall c1 c2,
     w2 (PyStr.ascii_lower_char c1) (PyStr.ascii_lower_char c2) = w2 c1 c2) ->
  (forall c1 c2 c3,
     w3 (PyStr.ascii_lower_char c1) (PyStr.ascii_lower_char c2)
       (PyStr.ascii_lower_char c3) = w3 c1 c2 c3) ->
  PyStr.lstrip_with w1 w2 w3 (PyStr.ascii_lower s)
  = PyStr.ascii_lower (PyStr.lstrip_with w1 w2 w3 s).
Proof.
  intros E1 E2 E3. induction s as [s IH] using string_length_ind.
  destruct s as [|c1 r1]; [reflexivity|].
  cbn [PyStr.ascii_lower]. destruct (w1 c1) eqn:H1.
  { rewrite !lstrip_with_1 by (rewrite ?E1; exact H1). apply IH. simpl. lia. }
  destruct r1 as [|c2 r2].
  { cbn [PyStr.lstrip_with PyStr.ascii_lower]. now rewrite E1, H1. }
  cbn [PyStr.ascii_lower]. destruct (w2 c1 c2) eqn:H2.
  { rewrite !lstrip_with_2 by (rewrite ?E1, ?E2; assumption).
    apply IH. simpl. lia. }
  destruct r2 as [|c3 r3].
  { cbn [PyStr.lstrip_with PyStr.ascii_lower]. now rewrite E1, H1, E2, H2. }
  cbn [PyStr.ascii_lower]. destruct (w3 c1 c2 c3) eqn:H3.
  { rewrite !lstrip_with_3 by (rewrite ?E1, ?E2, ?E3; assumption).
    apply IH. simpl. lia. }
  cbn [PyStr.lstrip_with PyStr.ascii_lower].
  now rewrite E1, H1, E2, H2, E3, H3.
Qed.

Lemma rev_app_ascii_lower (s acc : string) :
  String.rev_app (PyStr.ascii_lower s) (PyStr.ascii_lower acc)
  = PyStr.ascii_lower (String.rev_app s acc).
Proof.
  revert acc. induction s as [|c r IH]; intros acc; [reflexivity|].
  simpl. rewrite <- IH. reflexivity.
Qed.

Lemma strip_ascii_lower (s : string) :
  PyStr.strip (PyStr.ascii_lower s) = PyStr.ascii_lower (PyStr.strip s).
Proof.
  unfold PyStr.strip, PyStr.rstrip, PyStr.lstrip, String.rev.
  rewrite (lstrip_with_ascii_lower _ _ _ s space1_lower_char space2_lower_char
             space3_lower_char).
  rewrite (rev_app_ascii_lower _ "").
  rewrite lstrip_with_ascii_lower.
  - apply (rev_app_ascii_lower _ "").
  - exact space1_lower_char.
  - intros c1 c2. apply space2_lower_char.
  - intros c1 c2 c3. apply space3_lower_char.
Qed.

(** [str.lower] on ASCII text keeps a blank text blank and a text that
    is not blank not blank. *)
Lemma ascii_lower_keeps_blank : PyStr.keeps_blank PyStr.ascii_lower.
Proof.
  intros s. rewrite strip_ascii_lower.
  destruct (PyStr.strip s); simpl; split; congruence.
Qed.

(** X5. The HTML test of [_post_ews] looks past leading white space: a
    body and the same body behind any run of white space characters, of
    one byte or more, are judged alike. *)
Theorem html_check_ignores_leading_space (ws body : string) :
  PyStr.all_space ws = true ->
  looks_like_html (ws +:+ body) = looks_like_html body.
Proof.
  intros H. unfold looks_like_html, PyStr.strip.
  now rewrite (lstrip_leading_space ws body H).
Qed.

Lemma html_check_ignores_leading_space_witness :
  looks_like_html
    ((nl +:+ Mock.nbsp +:+ "  ") +:+ "<html><body>Sign in</body></html>")
  = looks_like_html "<html><body>Sign in</body></html>".
Proof.
  apply (html_check_ignores_leading_space (nl +:+ Mock.nbsp +:+ "  ")).
  by_computation.
Defined.

(** ** What a read can return *)

Lemma record_of_emitted lower du a lv :
  record_of lower du = Some (a, lv) ->
  exists x, address_of du = Some x /\ PyStr.strip x <> "" /\ a = lower x
            /\ lv = level_of du.
Proof.
  unfold record_of. destruct (address_of du) as [x|]; [|discriminate].
  destruct (bool_decide_reflect (PyStr.strip x = "")) as [|Hx]; [discriminate|].
  intros [= <- <-]. now exists x.
Qed.

Lemma delegates_of_root_emitted lower root a lv :
  In (a, lv) (delegates_of_root lower root) ->
  exists du x,
    In du (ET.findall_descendants (qname NS_T "DelegateUser") root)
    /\ address_of du = Some x /\ PyStr.strip x <> "" /\ a = lower x
    /\ lv = level_of du.
Proof.
  unfold delegates_of_root. intros (du & Hdu & Hin)%in_flat_map.
  rewrite delegate_entry_record in Hin.
  destruct (record_of lower du) as [[a' lv']|] eqn:Hrec; simpl in Hin; [|tauto].
  destruct Hin as [[= -> ->]|[]].
  apply record_of_emitted in Hrec as (x & Hx & Hstrip & -> & ->).
  now exists du, x.
Qed.

Lemma delegate_entry_length lower du : length (delegate_entry lower du) <= 1.
Proof.
  rewrite delegate_entry_record. destruct (record_of lower du); simpl; lia.
Qed.

(** X6. A read returns at most one pair for each [DelegateUser] element,
    and every pair it returns comes from such an element: the element
    holds an address that [str.strip] does not empty, the pair holds that
    address lower-cased and the element's inbox level.  Where lower-casing
    keeps a text that is not blank not blank, no returned address is
    blank. *)
Theorem emitted_addresses lower root :
  length (delegates_of_root lower root)
  <= length (ET.findall_descendants (qname NS_T "DelegateUser") root)
  /\ forall a lv,
       In (a, lv) (delegates_of_root lower root) ->
       exists du x,
         In du (ET.findall_descendants (qname NS_T "DelegateUser") root)
         /\ address_of du = Some x
         /\ PyStr.strip x <> ""
         /\ a = lower x
         /\ lv = level_of du
         /\ (PyStr.keeps_blank lower -> PyStr.strip a <> "").
Proof.
  split.
  - unfold delegates_of_root.
    induction (ET.findall_descendants _ root) as [|du r IH]; simpl; [lia|].
    rewrite length_app. pose proof (delegate_entry_length lower du). lia.
  - intros a lv (du & x & Hdu & Hx & Hstrip & -> & ->)%delegates_of_root_emitted.
    exists du, x. repeat split; try assumption.
    intros Hlaw H. apply Hstrip. now apply Hlaw.
Qed.

Lemma emitted_addresses_witness :
  let root := Mock.get_response (Mock.entries_of Mock.Author) in
  exists du x,
    In du (ET.findall_descendants (qname NS_T "DelegateUser") root)
    /\ address_of du = Some x
    /\ PyStr.strip x <> ""
    /\ "john@example.com" = PyStr.ascii_lower x
    /\ Some "Author" = level_of du
    /\ (PyStr.keeps_blank PyStr.ascii_lower ->
        PyStr.strip "john@example.com" <> "").
Proof.
  cbv zeta.
  apply (proj2 (emitted_addresses PyStr.ascii_lower
                  (Mock.get_response (Mock.entries_of Mock.Author)))
           "john@example.com" (Some "Author")).
  vm_compute. left. reflexivity.
Defined.

(** X7. The root element itself is never searched: two documents whose
    roots have the same children give the same read and the same write
    results, and a root without children gives the empty list and the
    failure [UnknownError], whatever its tag and attributes. *)
Theorem root_is_not_searched lower :
  (forall t a x t' a' x' cs,
     delegates_of_root lower (ET.Element t a x cs)
     = delegates_of_root lower (ET.Element t' a' x' cs)
     /\ add_result (ET.Element t a x cs) = add_result (ET.Element t' a' x' cs)
     /\ update_result (ET.Element t a x cs) = update_result (ET.Element t' a' x' cs))
  /\ (forall t a x,
       delegates_of_root lower (ET.Element t a x []) = []
       /\ add_result (ET.Element t a x []) = (false, Some "UnknownError")
       /\ update_result (ET.Element t a x []) = (false, Some "UnknownError")).
Proof. split; intros; repeat split. Qed.

(** ** The request bodies *)

Lemma verbatim_injective build s s' : verbatim_in build -> build s = build s' -> s = s'.
Proof.
  intros (pre & post & H). rewrite !H. intros E.
  apply (inj (String.app pre)) in E. now apply string_app_cancel_r in E.
Qed.

(** X8. The three kinds of request never coincide, whatever the owner,
    delegate, level and policy strings are: no request is of two kinds. *)
Theorem request_kinds_disjoint owner req :
  ~ (is_get_call owner req /\ is_add_call owner req)
  /\ ~ (is_get_call owner req /\ is_update_call owner req)
  /\ ~ (is_add_call owner req /\ is_update_call owner req).
Proof.
  unfold is_get_call, is_add_call, is_update_call. repeat split.
  - intros [Hg (d & rc & vp & dm & Ha)]. rewrite Hg in Ha.
    exact (get_body_not_add _ _ _ _ _ Ha).
  - intros [Hg (d & level & Hu)]. rewrite Hg in Hu.
    exact (get_body_not_update _ _ _ Hu).
  - intros [(d & rc & vp & dm & Ha) (d' & level & Hu)]. rewrite Ha in Hu.
    exact (add_body_not_update _ _ _ _ _ _ _ Hu).
Qed.

(** X9. Each builder is injective in each of its string arguments: two
    different owners, delegates, levels or policies never give the same
    body when the other arguments are the same. *)
Theorem builders_injective o o' d d' level level' dm dm' rc vp :
  (o <> o' ->
     soap_get_delegate o <> soap_get_delegate o'
     /\ soap_add_delegate o d rc vp dm <> soap_add_delegate o' d rc vp dm
     /\ soap_update_delegate o d level <> soap_update_delegate o' d level)
  /\ (d <> d' ->
       soap_add_delegate o d rc vp dm <> soap_add_delegate o d' rc vp dm
       /\ soap_update_delegate o d level <> soap_update_delegate o d' level)
  /\ (dm <> dm' ->
       soap_add_delegate o d rc vp dm <> soap_add_delegate o d rc vp dm')
  /\ (level <> level' ->
       soap_update_delegate o d level <> soap_update_delegate o d level').
Proof.
  split; [|split; [|split]]; intros H.
  - repeat split; intros E; apply H; revert E.
    + apply (verbatim_injective soap_get_delegate), get_owner_verbatim.
    + apply (verbatim_injective (fun x => soap_add_delegate x d rc vp dm)),
        add_owner_verbatim.
    + apply (verbatim_injective (fun x => soap_update_delegate x d level)),
        update_owner_verbatim.
  - split; intros E; apply H; revert E.
    + apply (verbatim_injective (fun x => soap_add_delegate o x rc vp dm)),
        add_delegate_verbatim.
    + apply (verbatim_injective (fun x => soap_update_delegate o x level)),
        update_delegate_verbatim.
  - intros E; apply H; revert E.
    apply (verbatim_injective (fun x => soap_add_delegate o d rc vp x)),
      add_deliver_verbatim.
  - intros E; apply H; revert E.
    apply (verbatim_injective (fun x => soap_update_delegate o d x)),
      update_level_verbatim.
Qed.

Lemma builders_injective_witness :
  soap_add_delegate "owner@example.com" "a@x.com" false false default_deliver_meeting
  <> soap_add_delegate "owner@example.com" "b@x.com" false false
       default_deliver_meeting
  /\ soap_update_delegate "owner@example.com" "a@x.com" "Reviewer"
     <> soap_update_delegate "owner@example.com" "b@x.com" "Reviewer".
Proof.
  apply (proj1 (proj2 (builders_injective "owner@example.com" "owner@example.com"
                         "a@x.com" "b@x.com" "Reviewer" "Reviewer"
                         default_deliver_meeting default_deliver_meeting
                         false false))).
  discriminate.
Defined.

(** ** More on the operations *)

Section Operations.

Variable lower : string -> string.
Context {Server : Type}.
Variable requests_post : request -> Server -> option response * Server.
Variable fromstring : string -> option ET.element.
Variable self : EWSDelegationManager.

Abbreviation world := (@world Server).
Abbreviation post_ews := (_post_ews requests_post self).
Abbreviation get := (get_inbox_level lower requests_post fromstring self).
Abbreviation add := (add_delegate_inbox_reviewer requests_post fromstring self).
Abbreviation update := (update_delegate_inbox requests_post fromstring self).
Abbreviation ensure := (ensure_inbox_reviewer lower requests_post fromstring self).
Abbreviation owner := (owner_upn self).
Abbreviation G := (get_request self).
Abbreviation A d := (add_request self d false false default_deliver_meeting).
Abbreviation U d := (update_request self d "Reviewer").

Lemma sent_of_get (w w1 : world) r : get w = (r, w1) -> sent w1 = sent w ++ [G].
Proof.
  intros H. rewrite <- (get_sent lower requests_post fromstring self w), H. reflexivity.
Qed.

Lemma sent_of_add d (w w1 : world) r :
  add d false false default_deliver_meeting w = (r, w1) -> sent w1 = sent w ++ [A d].
Proof.
  intros H.
  rewrite <- (add_sent requests_post fromstring self d false false
                default_deliver_meeting w), H. reflexivity.
Qed.

Lemma sent_of_update d (w w1 : world) r :
  update d "Reviewer" w = (r, w1) -> sent w1 = sent w ++ [U d].
Proof.
  intros H.
  rewrite <- (update_sent requests_post fromstring self d "Reviewer" w), H.
  reflexivity.
Qed.

Lemma get_entries_emitted (w w1 : world) entries a lv :
  get w = (inr entries, w1) -> In (a, lv) entries ->
  exists x, PyStr.strip x <> "" /\ a = lower x.
Proof.
  rewrite get_run. unfold exchange_result.
  destruct (checked_reply _) as [e|xml]; [discriminate|].
  destruct (fromstring xml) as [root|]; [|discriminate].
  intros [= <- _] (du & x & _ & _ & Hx & Ha & _)%delegates_of_root_emitted.
  now exists x.
Qed.

(** A read returns addresses as [lower] left them.  Where lower-casing
    a lower-cased text changes nothing, comparing such an address with
    the lower-cased target, as [ensure_inbox_reviewer] does, is comparing
    the two lower-cased. *)
Lemma read_address_comparison d (w w1 : world) entries a lv :
  (forall s, lower (lower s) = lower s) ->
  get w = (inr entries, w1) -> In (a, lv) entries ->
  lower a = lower d <-> a = lower d.
Proof.
  intros Hidem Hget Hin.
  destruct (get_entries_emitted _ _ _ _ _ Hget Hin) as (x & _ & ->).
  now rewrite Hidem.
Qed.

Lemma add_success_message d rc vp dm (w w1 : world) m :
  add d rc vp dm w = (inr (true, m), w1) -> m = Some "AddDelegate Success".
Proof.
  rewrite add_run. unfold exchange_result.
  destruct (checked_reply _) as [e|xml]; [discriminate|].
  destruct (fromstring xml) as [root|]; [|discriminate].
  intros [= Hres _].
  destruct (add_result_contract root) as (_ & Hmsg & _).
  rewrite Hres in Hmsg. now apply Hmsg.
Qed.

Lemma update_success_message d level (w w1 : world) m :
  update d level w = (inr (true, m), w1) -> m = Some "UpdateDelegate Success".
Proof.
  rewrite update_run. unfold exchange_result.
  destruct (checked_reply _) as [e|xml]; [discriminate|].
  destruct (fromstring xml) as [root|]; [|discriminate].
  intros [= Hres _].
  destruct (update_result_contract root) as (_ & Hmsg & _).
  rewrite Hres in Hmsg. now apply Hmsg.
Qed.

(** X1. When the read raises, [ensure_inbox_reviewer] raises the same
    exception and has sent the [GetDelegate] request only: no write is
    attempted after a failed read. *)
Theorem ensure_read_failure d (w w1 : world) e :
  get w = (inl e, w1) ->
  ensure d w = (inl e, w1) /\ sent w1 = sent w ++ [G].
Proof.
  intros Hget. split.
  - now rewrite ensure_run, Hget.
  - exact (sent_of_get _ _ _ Hget).
Qed.

(** X2. Whatever the server answers, [ensure_inbox_reviewer] sends the
    [GetDelegate] request first and then at most one write: nothing, one
    [AddDelegate] with the default flags, or one [UpdateDelegate] to
    [Reviewer], each for the delegate it was called with. *)
Theorem ensure_requests d (w : world) :
  sent (snd (ensure d w)) = sent w ++ [G]
  \/ sent (snd (ensure d w)) = sent w ++ [G; A d]
  \/ sent (snd (ensure d w)) = sent w ++ [G; U d].
Proof.
  rewrite ensure_run.
  destruct (get w) as [[e|entries] w1] eqn:Hget;
    pose proof (sent_of_get _ _ _ Hget) as Hsent; simpl; [now left|].
  destruct (scan_found_level entries (lower d)) as [level|].
  - destruct (String.eqb level "Reviewer"); simpl; [now left|].
    right. right.
    destruct (update d "Reviewer" w1) as [r w2] eqn:Hupdate. simpl.
    rewrite (sent_of_update _ _ _ _ Hupdate), Hsent, <- app_assoc. reflexivity.
  - right. left.
    destruct (add d false false default_deliver_meeting w1) as [r w2] eqn:Hadd.
    simpl. rewrite (sent_of_add _ _ _ _ Hadd), Hsent, <- app_assoc. reflexivity.
Qed.

(** X3. The result of [ensure_inbox_reviewer] tells what it did.  A
    success carries one of three messages: [Already Reviewer] exactly when
    no write was sent, [AddDelegate Success] after an [AddDelegate],
    [UpdateDelegate Success] after an [UpdateDelegate]; a failure result
    always comes from a write that was sent. *)
Theorem ensure_result_tells_action d (w w' : world) success message :
  ensure d w = (inr (success, message), w') ->
  (success = true /\ message = Some "Already Reviewer"
   /\ sent w' = sent w ++ [G])
  \/ (sent w' = sent w ++ [G; A d]
      /\ (success = true -> message = Some "AddDelegate Success"))
  \/ (sent w' = sent w ++ [G; U d]
      /\ (success = true -> message = Some "UpdateDelegate Success")).
Proof.
  rewrite ensure_run.
  destruct (get w) as [[e|entries] w1] eqn:Hget; [discriminate|].
  pose proof (sent_of_get _ _ _ Hget) as Hsent.
  destruct (scan_found_level entries (lower d)) as [level|].
  - destruct (String.eqb level "Reviewer").
    + intros [= <- <- <-]. left. auto.
    + intros Hupdate. right. right. split.
      * rewrite (sent_of_update _ _ _ _ Hupdate), Hsent, <- app_assoc. reflexivity.
      * intros ->. exact (update_success_message _ _ _ _ _ Hupdate).
  - intros Hadd. right. left. split.
    + rewrite (sent_of_add _ _ _ _ Hadd), Hsent, <- app_assoc. reflexivity.
    + intros ->. exact (add_success_message _ _ _ _ _ _ _ Hadd).
Qed.

(** X4. [_post_ews] returns exactly when the transport replied, the
    status is neither 401 nor in 400..599, and the stripped body starts
    with neither [<!DOCTYPE HTML] nor [<html]; what it returns is the
    body as received, not stripped. *)
Theorem post_ews_returns_iff soap_xml anchor (w : world) reply s' xml :
  requests_post (make_request self soap_xml anchor) (server w) = (reply, s') ->
  fst (post_ews soap_xml anchor w) = inr xml
  <-> exists resp,
        reply = Some resp
        /\ status_code resp <> 401%Z
        /\ ~ (400 <= status_code resp < 600)%Z
        /\ looks_like_html (resp_text resp) = false
        /\ xml = resp_text resp.
Proof.
  intros Hreply. rewrite post_ews_run. cbv zeta. rewrite Hreply. simpl.
  unfold checked_reply. destruct reply as [resp|].
  - destruct (Z.eqb_spec (status_code resp) 401) as [H401|H401].
    { split; [discriminate|]. intros (r & [= <-] & Hne & _). contradiction. }
    destruct ((400 <=? status_code resp)%Z && (status_code resp <? 600)%Z)
      eqn:Hrange.
    { apply andb_true_iff in Hrange as [?%Z.leb_le ?%Z.ltb_lt].
      split; [discriminate|]. intros (r & [= <-] & _ & Hout & _). lia. }
    assert (~ (400 <= status_code resp < 600)%Z) as Hout.
    { intros [? ?]. apply andb_false_iff in Hrange as [?%Z.leb_gt|?%Z.ltb_ge]; lia. }
    destruct (looks_like_html (resp_text resp)) eqn:Hhtml.
    { split; [discriminate|].
      intros (r & [= <-] & _ & _ & Hno & _). congruence. }
    split.
    + intros [= <-]. exists resp. auto.
    + intros (r & [= <-] & _ & _ & _ & ->). reflexivity.
  - split; [discriminate|]. intros (r & [=] & _).
Qed.

(** X10. For a blank delegate address (empty or white space only) a read
    that succeeds never matches, so [ensure_inbox_reviewer] always goes
    on to [add_delegate_inbox_reviewer] with that address.  Of
    [str.lower] this uses that it keeps a blank text blank and a text
    that is not blank not blank. *)
Theorem ensure_blank_delegate_adds d (w w1 : world) entries :
  PyStr.keeps_blank lower ->
  PyStr.strip d = "" ->
  get w = (inr entries, w1) ->
  ensure d w = add d false false default_deliver_meeting w1
  /\ sent (snd (ensure d w)) = sent w ++ [G; A d].
Proof.
  intros Hlaw Hblank Hget.
  assert (ensure d w = add d false false default_deliver_meeting w1) as Heq.
  { rewrite ensure_run, Hget, scan_found_level_no_entry; [reflexivity|].
    intros a lv Hin Ha.
    destruct (get_entries_emitted _ _ _ _ _ Hget Hin) as (x & Hx & Hlow).
    apply Hx. apply Hlaw. rewrite <- Hlow, Ha. now apply Hlaw. }
  split; [exact Heq|]. rewrite Heq.
  destruct (add d false false default_deliver_meeting w1) as [r w2] eqn:Hadd.
  simpl.
  rewrite (sent_of_add _ _ _ _ Hadd), (sent_of_get _ _ _ Hget), <- app_assoc.
  reflexivity.
Qed.

(** X11. Which of the three courses [ensure_inbox_reviewer] takes does
    not depend on the case of the target: for two targets equal up to
    ASCII case it sends no write, an [AddDelegate] or an [UpdateDelegate]
    for the one exactly when it does for the other.  Of [str.lower] this
    uses that it does not tell such targets apart. *)
Theorem ensure_course_ignores_case d d' (w : world) :
  PyStr.ignores_ascii_case lower ->
  PyStr.eq_nocase d d' ->
  (sent (snd (ensure d w)) = sent w ++ [G]
   <-> sent (snd (ensure d' w)) = sent w ++ [G])
  /\ (sent (snd (ensure d w)) = sent w ++ [G; A d]
      <-> sent (snd (ensure d' w)) = sent w ++ [G; A d'])
  /\ (sent (snd (ensure d w)) = sent w ++ [G; U d]
      <-> sent (snd (ensure d' w)) = sent w ++ [G; U d']).
Proof.
  intros Hlaw Hcase. rewrite !ensure_run, (Hlaw d d' Hcase).
  assert (forall x y : request, sent w ++ [G] <> sent w ++ [x; y]) as Hone.
  { intros x y E%app_inv_head. apply (f_equal (@length request)) in E.
    discriminate E. }
  assert (forall x y, A x <> U y) as Hau.
  { intros x y E. apply (f_equal req_data) in E.
    exact (add_body_not_update _ _ _ _ _ _ _ E). }
  assert (forall x y, sent w ++ [G; A x] <> sent w ++ [G; U y]) as Hdiff.
  { intros x y E%app_inv_head.
    apply (f_equal (fun l => nth 1 l G)) in E. exact (Hau x y E). }
  destruct (get w) as [[e|entries] w1] eqn:Hget;
    pose proof (sent_of_get _ _ _ Hget) as Hsent; simpl.
  { rewrite Hsent. repeat split; intros E; try reflexivity;
      exfalso; exact (Hone _ _ E). }
  destruct (scan_found_level entries (lower d')) as [level|].
  - destruct (String.eqb level "Reviewer"); simpl.
    { rewrite Hsent. repeat split; intros E; try reflexivity;
        exfalso; exact (Hone _ _ E). }
    destruct (update d "Reviewer" w1) as [r w2] eqn:Hu.
    destruct (update d' "Reviewer" w1) as [r' w2'] eqn:Hu'. simpl.
    rewrite (sent_of_update _ _ _ _ Hu), (sent_of_update _ _ _ _ Hu'), Hsent,
      <- !app_assoc. simpl.
    repeat split; intros E; try reflexivity; exfalso.
    + symmetry in E. exact (Hone _ _ E).
    + symmetry in E. exact (Hone _ _ E).
    + symmetry in E. exact (Hdiff _ _ E).
    + symmetry in E. exact (Hdiff _ _ E).
  - destruct (add d false false default_deliver_meeting w1) as [r w2] eqn:Ha.
    destruct (add d' false false default_deliver_meeting w1) as [r' w2'] eqn:Ha'.
    simpl.
    rewrite (sent_of_add _ _ _ _ Ha), (sent_of_add _ _ _ _ Ha'), Hsent,
      <- !app_assoc. simpl.
    repeat split; intros E; try reflexivity; exfalso.
    + symmetry in E. exact (Hone _ _ E).
    + symmetry in E. exact (Hone _ _ E).
    + exact (Hdiff _ _ E).
    + exact (Hdiff _ _ E).
Qed.

End Operations.

Lemma ensure_read_failure_witness :
  ensure_inbox_reviewer Mock.lower (Mock.constant_post None) Mock.fromstring Mock.manager
    Mock.delegate (World tt [])
  = (inl RequestException, World tt [get_request Mock.manager])
  /\ sent (World tt [get_request Mock.manager]) = [] ++ [get_request Mock.manager].
Proof.
  apply (ensure_read_failure Mock.lower (Mock.constant_post None) Mock.fromstring Mock.manager
           Mock.delegate (World tt [])).
  by_computation.
Defined.

Lemma ensure_result_tells_action_witness :
  (true = true /\ Some "UpdateDelegate Success" = Some "Already Reviewer"
   /\ sent (World Mock.Reviewer
              [get_request Mock.manager;
               update_request Mock.manager Mock.delegate "Reviewer"])
      = [] ++ [get_request Mock.manager])
  \/ (sent (World Mock.Reviewer
              [get_request Mock.manager;
               update_request Mock.manager Mock.delegate "Reviewer"])
      = [] ++ [get_request Mock.manager;
               add_request Mock.manager Mock.delegate false false
                 default_deliver_meeting]
      /\ (true = true -> Some "UpdateDelegate Success" = Some "AddDelegate Success"))
  \/ (sent (World Mock.Reviewer
              [get_request Mock.manager;
               update_request Mock.manager Mock.delegate "Reviewer"])
      = [] ++ [get_request Mock.manager;
               update_request Mock.manager Mock.delegate "Reviewer"]
      /\ (true = true ->
          Some "UpdateDelegate Success" = Some "UpdateDelegate Success")).
Proof.
  apply (ensure_result_tells_action Mock.lower (Mock.requests_post true) Mock.fromstring
           Mock.manager Mock.delegate (World Mock.Author [])).
  by_computation.
Defined.

Lemma post_ews_returns_iff_witness :
  fst (_post_ews (Mock.requests_post true) Mock.manager
         (soap_get_delegate (owner_upn Mock.manager))
         (Some (owner_upn Mock.manager)) (World Mock.Absent []))
  = inr (Mock.get_response_text [])
  <-> exists resp,
        Mock.ok (Mock.get_response_text []) = Some resp
        /\ status_code resp <> 401%Z
        /\ ~ (400 <= status_code resp < 600)%Z
        /\ looks_like_html (resp_text resp) = false
        /\ Mock.get_response_text [] = resp_text resp.
Proof.
  apply (post_ews_returns_iff (Mock.requests_post true) Mock.manager
           (soap_get_delegate (owner_upn Mock.manager))
           (Some (owner_upn Mock.manager)) (World Mock.Absent [])
           (Mock.ok (Mock.get_response_text [])) Mock.Absent).
  by_computation.
Defined.

Lemma ensure_blank_delegate_adds_witness :
  ensure_inbox_reviewer PyStr.ascii_lower (Mock.requests_post true) Mock.fromstring
    Mock.manager Mock.nbsp (World Mock.Reviewer [])
  = add_delegate_inbox_reviewer (Mock.requests_post true) Mock.fromstring
      Mock.manager Mock.nbsp false false default_deliver_meeting
      (World Mock.Reviewer [get_request Mock.manager])
  /\ sent (snd (ensure_inbox_reviewer PyStr.ascii_lower (Mock.requests_post true)
                  Mock.fromstring Mock.manager Mock.nbsp (World Mock.Reviewer [])))
     = [] ++ [get_request Mock.manager;
              add_request Mock.manager Mock.nbsp false false
                default_deliver_meeting].
Proof.
  apply (ensure_blank_delegate_adds PyStr.ascii_lower (Mock.requests_post true)
           Mock.fromstring Mock.manager Mock.nbsp (World Mock.Reviewer []) _
           [("john@example.com", Some "Reviewer")]).
  - exact ascii_lower_keeps_blank.
  - by_computation.
  - by_computation.
Defined.

Lemma ensure_course_ignores_case_witness :
  let ensure := ensure_inbox_reviewer PyStr.ascii_lower (Mock.requests_post true)
                  Mock.fromstring Mock.manager in
  let w := World Mock.Author [] in
  (sent (snd (ensure "john@example.com" w)) = sent w ++ [get_request Mock.manager]
   <-> sent (snd (ensure "JOHN@Example.Com" w))
       = sent w ++ [get_request Mock.manager])
  /\ (sent (snd (ensure "john@example.com" w))
      = sent w ++ [get_request Mock.manager;
                   add_request Mock.manager "john@example.com" false false
                     default_deliver_meeting]
      <-> sent (snd (ensure "JOHN@Example.Com" w))
          = sent w ++ [get_request Mock.manager;
                       add_request Mock.manager "JOHN@Example.Com" false false
                         default_deliver_meeting])
  /\ (sent (snd (ensure "john@example.com" w))
      = sent w ++ [get_request Mock.manager;
                   update_request Mock.manager "john@example.com" "Reviewer"]
      <-> sent (snd (ensure "JOHN@Example.Com" w))
          = sent w ++ [get_request Mock.manager;
                       update_request Mock.manager "JOHN@Example.Com" "Reviewer"]).
Proof.
  apply (ensure_course_ignores_case PyStr.ascii_lower (Mock.requests_post true)
           Mock.fromstring Mock.manager "john@example.com" "JOHN@Example.Com"
           (World Mock.Author [])).
  - exact ascii_lower_ignores_case.
  - same_letters.
Defined.

(** ** The harness *)

Section HarnessFacts.

Variable lower : string -> string.
Context {Server : Type}.
Variable requests_post : request -> Server -> option response * Server.
Variable fromstring : string -> option ET.element.

Abbreviation world := (@world Server).
Abbreviation Script := (@Script Server).
Abbreviation run_main := (main lower requests_post fromstring).
Abbreviation get self := (get_inbox_level lower requests_post fromstring self).
Abbreviation add self d :=
  (add_delegate_inbox_reviewer requests_post fromstring self d false false
     default_deliver_meeting).
Abbreviation update self := (update_delegate_inbox requests_post fromstring self).
Abbreviation ensure self := (ensure_inbox_reviewer lower requests_post fromstring self).
Abbreviation listing self := (test_get_inbox_level lower requests_post fromstring self).

(** *** Composition of the three predicates *)

Lemma sends_ret {A : Type} P (a : A) : sends_within P 0 (@script_ret Server A a).
Proof. intros w. exists []. simpl. rewrite app_nil_r. auto. Qed.

Lemma sends_bind {A B : Type} P n k (m : Script A) (f : A -> Script B) :
  sends_within P n m -> (forall a, sends_within P k (f a)) ->
  sends_within P (n + k) (script_bind m f).
Proof.
  intros Hm Hf w. unfold script_bind.
  destruct (Hm w) as (l & Hl & Hn & HP).
  destruct (m w) as [[e|a] w1]; simpl in *.
  - exists l. split; [exact Hl|]. split; [lia | exact HP].
  - destruct (Hf a w1) as (l' & Hl' & Hk & HP').
    exists (l ++ l'). rewrite Hl', Hl, <- app_assoc. split; [reflexivity|].
    rewrite length_app. split; [lia|]. apply Forall_app. now split.
Qed.

Lemma sends_reraising {A : Type} P n (m : @M Server A) :
  (forall w, exists l, sent (snd (m w)) = sent w ++ l /\ length l <= n /\ Forall P l) ->
  sends_within P n (reraising m).
Proof.
  intros H w. unfold reraising. specialize (H w).
  destruct (m w) as [[e|a] w1]; exact H.
Qed.

Lemma sends_when_set {A : Type} P n toggle (step : Script A) :
  (toggle = true -> sends_within P n step) ->
  sends_within P (if toggle then n else 0) (when_set toggle step).
Proof.
  intros H. unfold when_set. destruct toggle; [|apply sends_ret].
  replace n with (n + 0) by lia. apply sends_bind; [now apply H|].
  intros _. apply sends_ret.
Qed.

Lemma exits_ret {A : Type} (a : A) : never_exits (@script_ret Server A a).
Proof. intros w msg. discriminate. Qed.

Lemma exits_bind {A B : Type} (m : Script A) (f : A -> Script B) :
  never_exits m -> (forall a, never_exits (f a)) -> never_exits (script_bind m f).
Proof.
  intros Hm Hf w msg. unfold script_bind. specialize (Hm w msg).
  destruct (m w) as [[e|a] w1]; [|apply Hf].
  simpl in *. intros [= ->]. now apply Hm.
Qed.

Lemma exits_reraising {A : Type} (m : @M Server A) : never_exits (reraising m).
Proof.
  intros w msg. unfold reraising. destruct (m w) as [[e|a] w1]; discriminate.
Qed.

Lemma exits_when_set {A : Type} toggle (step : Script A) :
  never_exits step -> never_exits (when_set toggle step).
Proof.
  intros H. unfold when_set. destruct toggle; [|apply exits_ret].
  apply exits_bind; [exact H|]. intros _. apply exits_ret.
Qed.

Lemma returns_ret {A : Type} (a : A) : returns_normally (@script_ret Server A a).
Proof. intros w. now exists a. Qed.

Lemma returns_bind {A B : Type} (m : Script A) (f : A -> Script B) :
  returns_normally m -> (forall a, returns_normally (f a)) ->
  returns_normally (script_bind m f).
Proof.
  intros Hm Hf w. unfold script_bind. destruct (Hm w) as (a & Ha).
  destruct (m w) as [[e|a'] w1]; [discriminate|]. apply Hf.
Qed.

Lemma returns_reraising {A : Type} (m : @M Server A) :
  (forall w, exists a, fst (m w) = inr a) -> returns_normally (reraising m).
Proof.
  intros H w. unfold reraising. destruct (H w) as (a & Ha).
  destruct (m w) as [[e|a'] w1]; [discriminate|]. now exists a'.
Qed.

Lemma returns_when_set {A : Type} toggle (step : Script A) :
  returns_normally step -> returns_normally (when_set toggle step).
Proof.
  intros H. unfold when_set. destruct toggle; [|apply returns_ret].
  apply returns_bind; [exact H|]. intros _. apply returns_ret.
Qed.

(** *** The steps *)

Lemma listing_world self (w : world) : snd (listing self w) = snd (get self w).
Proof.
  unfold test_get_inbox_level, reraising, bind at 1.
  destruct (get self w) as [[e|entries] w1]; reflexivity.
Qed.

Lemma listing_result self (w : world) :
  fst (listing self w)
  = match fst (get self w) with
    | inl e => inl (Uncaught e)
    | inr _ => inr tt
    end.
Proof.
  unfold test_get_inbox_level, reraising, bind at 1.
  destruct (get self w) as [[e|entries] w1]; reflexivity.
Qed.

Lemma sends_listing self (P : request -> Prop) :
  P (get_request self) -> sends_within P 1 (listing self).
Proof.
  intros HP w. exists [get_request self].
  rewrite listing_world, get_sent. repeat split; auto.
Qed.

Lemma sends_add_step self d (P : request -> Prop) :
  P (add_request self d false false default_deliver_meeting) ->
  sends_within P 1 (test_add_delegate_inbox_reviewer requests_post fromstring self d).
Proof.
  intros HP. apply sends_reraising. intros w.
  exists [add_request self d false false default_deliver_meeting].
  rewrite add_sent. repeat split; auto.
Qed.

Lemma sends_update_step self d level (P : request -> Prop) :
  P (update_request self d level) ->
  sends_within P 1 (test_update_delegate_inbox requests_post fromstring self d level).
Proof.
  intros HP. apply sends_reraising. intros w. exists [update_request self d level].
  rewrite update_sent. repeat split; auto.
Qed.

Lemma sends_ensure_step self d (P : request -> Prop) :
  P (get_request self) ->
  P (add_request self d false false default_deliver_meeting) ->
  P (update_request self d "Reviewer") ->
  sends_within P 2 (test_ensure_inbox_reviewer lower requests_post fromstring self d).
Proof.
  intros Hg Ha Hu. apply sends_reraising. intros w. rewrite ensure_run.
  destruct (get self w) as [[e|entries] w1] eqn:Hget;
    pose proof (get_sent lower requests_post fromstring self w) as Hsent;
    rewrite Hget in Hsent; simpl in Hsent.
  { exists [get_request self]. simpl. repeat split; auto. }
  destruct (scan_found_level entries (lower d)) as [level|].
  - destruct (String.eqb level "Reviewer").
    + exists [get_request self]. simpl. repeat split; auto.
    + exists [get_request self; update_request self d "Reviewer"].
      rewrite update_sent, Hsent, <- app_assoc. simpl. repeat split; auto.
  - exists [get_request self; add_request self d false false default_deliver_meeting].
    rewrite add_sent, Hsent, <- app_assoc. simpl. repeat split; auto.
Qed.

Lemma sends_main (P : request -> Prop) c :
  let self := manager_of c in
  (RUN_LIST_BEFORE c || RUN_ENSURE c || RUN_LIST_AFTER c = true ->
   P (get_request self)) ->
  (RUN_ADD_IF_NOT_EXISTS c || RUN_ENSURE c = true ->
   P (add_request self (DELEGATE_UPN c) false false default_deliver_meeting)) ->
  (RUN_UPDATE c = true -> P (update_request self (DELEGATE_UPN c) (UPDATE_LEVEL c))) ->
  (RUN_ENSURE c = true -> P (update_request self (DELEGATE_UPN c) "Reviewer")) ->
  sends_within P (request_budget c) (run_main c).
Proof.
  intros self Hg Ha Hu He. unfold main. cbv zeta.
  destruct (missing_constants c) as [|name rest].
  - unfold request_budget. fold self.
    apply sends_bind.
    { apply sends_when_set. intros T. apply sends_listing, Hg. now rewrite T. }
    intros _. apply sends_bind.
    { apply sends_when_set. intros T. apply sends_add_step, Ha. now rewrite T. }
    intros _. apply sends_bind.
    { apply sends_when_set. intros T. now apply sends_update_step, Hu. }
    intros _. apply sends_bind.
    { apply sends_when_set. intros T.
      apply sends_ensure_step; [apply Hg | apply Ha | now apply He];
        rewrite T, ?orb_true_r; reflexivity. }
    intros _. apply sends_when_set. intros T. apply sends_listing, Hg.
    rewrite T, ?orb_true_r. reflexivity.
  - intros w. exists []. simpl. rewrite app_nil_r. repeat split; [lia | constructor].
Qed.

Lemma missing_constants_spec c :
  (missing_constants c = [] <->
   ~ (EWS_URL c = "" \/ OWNER_UPN c = "" \/ OWNER_USERNAME c = ""
      \/ OWNER_PASSWORD c = ""))
  /\ (In "EWS_URL" (missing_constants c) <-> EWS_URL c = "")
  /\ (In "OWNER_UPN" (missing_constants c) <-> OWNER_UPN c = "")
  /\ (In "OWNER_USERNAME" (missing_constants c) <-> OWNER_USERNAME c = "")
  /\ (In "OWNER_PASSWORD" (missing_constants c) <-> OWNER_PASSWORD c = "").
Proof.
  unfold missing_constants.
  destruct (EWS_URL c), (OWNER_UPN c), (OWNER_USERNAME c), (OWNER_PASSWORD c);
    simpl; repeat split; intros; try discriminate; intuition discriminate.
Qed.

Lemma exits_main c : missing_constants c = [] -> never_exits (run_main c).
Proof.
  intros H. unfold main. cbv zeta. rewrite H.
  repeat (apply exits_bind; [apply exits_when_set, exits_reraising | intros _]).
  apply exits_when_set, exits_reraising.
Qed.

(** X12. [main] checks the four required constants before anything else:
    when one is empty it raises [SystemExit] with the fixed text followed
    by the names of exactly the empty ones, and no request is sent; when
    none is empty it never raises [SystemExit]. *)
Theorem main_configuration_check c (w : world) :
  let incomplete :=
    EWS_URL c = "" \/ OWNER_UPN c = "" \/ OWNER_USERNAME c = ""
    \/ OWNER_PASSWORD c = "" in
  (incomplete ->
   run_main c w
   = (inl (SystemExit ("Fill required constants first: "
                       +:+ join ", " (missing_constants c))), w))
  /\ (~ incomplete -> forall msg, fst (run_main c w) <> inl (SystemExit msg))
  /\ (In "EWS_URL" (missing_constants c) <-> EWS_URL c = "")
  /\ (In "OWNER_UPN" (missing_constants c) <-> OWNER_UPN c = "")
  /\ (In "OWNER_USERNAME" (missing_constants c) <-> OWNER_USERNAME c = "")
  /\ (In "OWNER_PASSWORD" (missing_constants c) <-> OWNER_PASSWORD c = "").
Proof.
  intros incomplete.
  destruct (missing_constants_spec c) as (Hnil & Hnames).
  split; [|split; [|exact Hnames]].
  - intros Hinc. unfold main. cbv zeta.
    destruct (missing_constants c) as [|name rest] eqn:E; [|reflexivity].
    exfalso. rewrite <- E in Hnil. now apply (proj1 Hnil).
  - intros Hcomplete. apply exits_main. now apply Hnil.
Qed.

(** X13. [main] adds at most as many requests to the log as its toggles
    allow (one for each listing and each write step, two for the
    reconciliation, six in all), and each is the listing request, an
    [AddDelegate] for [DELEGATE_UPN] with the default flags, or an
    [UpdateDelegate] for [DELEGATE_UPN] to [UPDATE_LEVEL] or [Reviewer]. *)
Theorem main_requests c (w : world) :
  let self := manager_of c in
  exists l,
    sent (snd (run_main c w)) = sent w ++ l
    /\ length l <= request_budget c
    /\ request_budget c <= 6
    /\ Forall (fun r =>
                 r = get_request self
                 \/ r = add_request self (DELEGATE_UPN c) false false
                          default_deliver_meeting
                 \/ r = update_request self (DELEGATE_UPN c) (UPDATE_LEVEL c)
                 \/ r = update_request self (DELEGATE_UPN c) "Reviewer") l.
Proof.
  intros self.
  destruct (sends_main
              (fun r =>
                 r = get_request self
                 \/ r = add_request self (DELEGATE_UPN c) false false
                          default_deliver_meeting
                 \/ r = update_request self (DELEGATE_UPN c) (UPDATE_LEVEL c)
                 \/ r = update_request self (DELEGATE_UPN c) "Reviewer") c)
    with (w := w) as (l & Hl & Hn & HP); auto.
  exists l. repeat split; auto.
  unfold request_budget.
  destruct (RUN_LIST_BEFORE c), (RUN_ADD_IF_NOT_EXISTS c), (RUN_UPDATE c),
    (RUN_ENSURE c), (RUN_LIST_AFTER c); simpl; lia.
Qed.

(** X14. With the three write toggles off, [main] only reads: it sends
    the listing request at most twice and nothing else. *)
Theorem main_read_only c (w : world) :
  RUN_ADD_IF_NOT_EXISTS c = false ->
  RUN_UPDATE c = false ->
  RUN_ENSURE c = false ->
  exists n,
    n <= 2
    /\ sent (snd (run_main c w)) = sent w ++ repeat (get_request (manager_of c)) n.
Proof.
  intros Ta Tu Te.
  destruct (sends_main (fun r => r = get_request (manager_of c)) c)
    with (w := w) as (l & Hl & Hn & HP);
    try (rewrite ?Ta, ?Tu, ?Te; simpl; auto; discriminate).
  exists (length l). split.
  - unfold request_budget in Hn. rewrite Ta, Tu, Te in Hn.
    destruct (RUN_LIST_BEFORE c), (RUN_LIST_AFTER c); simpl in Hn; lia.
  - rewrite Hl. f_equal. clear Hl Hn.
    induction HP as [|r l Hr _ IH]; simpl; [reflexivity|]. f_equal; assumption.
Qed.

Lemma answers_get self (w : world) :
  always_answers requests_post fromstring ->
  exists v, fst (get self w) = inr v.
Proof.
  intros H. rewrite get_run. simpl. unfold exchange_result.
  destruct (H (get_request self) (server w)) as (xml & root & -> & ->). eauto.
Qed.

Lemma answers_add self d rc vp dm (w : world) :
  always_answers requests_post fromstring ->
  exists v, fst (add_delegate_inbox_reviewer requests_post fromstring self
                   d rc vp dm w) = inr v.
Proof.
  intros H. rewrite add_run. simpl. unfold exchange_result.
  destruct (H (add_request self d rc vp dm) (server w)) as (xml & root & -> & ->).
  eauto.
Qed.

Lemma answers_update self d level (w : world) :
  always_answers requests_post fromstring ->
  exists v, fst (update self d level w) = inr v.
Proof.
  intros H. rewrite update_run. simpl. unfold exchange_result.
  destruct (H (update_request self d level) (server w)) as (xml & root & -> & ->).
  eauto.
Qed.

Lemma answers_ensure self d (w : world) :
  always_answers requests_post fromstring ->
  exists v, fst (ensure self d w) = inr v.
Proof.
  intros H. rewrite ensure_run.
  destruct (answers_get self w H) as (entries & Hget).
  destruct (get self w) as [[e|entries'] w1]; [discriminate|].
  destruct (scan_found_level entries' (lower d)) as [level|].
  - destruct (String.eqb level "Reviewer"); [simpl; eauto|].
    apply answers_update, H.
  - apply answers_add, H.
Qed.


(** X16. When the first listing raises, [main] raises the same exception
    and stops there: the listing request is the only one sent, and none
    of the later steps runs. *)
Theorem main_stops_at_failed_listing c (w w1 : world) e :
  missing_constants c = [] ->
  RUN_LIST_BEFORE c = true ->
  get (manager_of c) w = (inl e, w1) ->
  run_main c w = (inl (Uncaught e), w1)
  /\ sent w1 = sent w ++ [get_request (manager_of c)].
Proof.
  intros Hmissing T Hget. split.
  - unfold main. cbv zeta. rewrite Hmissing, T.
    unfold script_bind at 1. unfold when_set at 1. unfold script_bind at 1.
    unfold test_get_inbox_level, reraising, bind at 1. now rewrite Hget.
  - rewrite <- (get_sent lower requests_post fromstring (manager_of c) w), Hget.
    reflexivity.
Qed.

Lemma reads_reviewer_same_server self d (w1 w2 : world) :
  server w2 = server w1 ->
  reads_reviewer lower requests_post fromstring self d w1 ->
  reads_reviewer lower requests_post fromstring self d w2.
Proof.
  intros Hserver (entries & w' & Hget & Hscan).
  destruct (get_same_server lower requests_post fromstring self w2 w1 Hserver) as [Hfst _].
  rewrite Hget in Hfst. simpl in Hfst.
  destruct (get self w2) as [r w''] eqn:Hget2. simpl in Hfst. subst r.
  now exists entries, w''.
Qed.

Lemma ensure_establishes self d (w : world) :
  stable_reads lower requests_post fromstring self ->
  add_takes_effect lower requests_post fromstring self d ->
  update_takes_effect lower requests_post fromstring self d ->
  exists message w1,
    ensure self d w = (inr (true, message), w1)
    /\ reads_reviewer lower requests_post fromstring self d w1.
Proof.
  intros Hstable Hadd Hupdate.
  destruct (Hstable w) as (entries & w' & Hget & Hserver).
  rewrite ensure_run, Hget.
  destruct (scan_found_level entries (lower d)) as [level|] eqn:Hscan.
  - destruct (String.eqb_spec level "Reviewer") as [->|_].
    + exists (Some "Already Reviewer"), w'. split; [reflexivity|].
      apply (reads_reviewer_same_server self d w w' Hserver).
      now exists entries, w'.
    + apply Hupdate.
  - apply Hadd.
Qed.


End HarnessFacts.

Lemma main_configuration_check_witness :
  let c := {| EWS_URL := "https://mail.example.com/EWS/Exchange.asmx";
              OWNER_UPN := "";
              OWNER_USERNAME := "owner";
              OWNER_PASSWORD := "";
              VERIFY_TLS := true;
              DELEGATE_UPN := Mock.delegate;
              UPDATE_LEVEL := "Reviewer";
              RUN_LIST_BEFORE := true;
              RUN_ADD_IF_NOT_EXISTS := false;
              RUN_UPDATE := false;
              RUN_ENSURE := true;
              RUN_LIST_AFTER := true |} in
  main Mock.lower (Mock.requests_post true) Mock.fromstring c (World Mock.Absent [])
  = (inl (SystemExit "Fill required constants first: OWNER_UPN, OWNER_PASSWORD"),
     World Mock.Absent []).
Proof.
  intros c.
  apply (proj1 (main_configuration_check Mock.lower (Mock.requests_post true) Mock.fromstring
                  c (World Mock.Absent []))).
  right. left. reflexivity.
Defined.

Lemma main_read_only_witness :
  exists n,
    n <= 2
    /\ sent (snd (main Mock.lower (Mock.requests_post true) Mock.fromstring
                    (mock_constants Mock.delegate true false false false true)
                    (World Mock.Author [])))
       = [] ++ repeat (get_request Mock.manager) n.
Proof.
  apply (main_read_only Mock.lower (Mock.requests_post true) Mock.fromstring
           (mock_constants Mock.delegate true false false false true)
           (World Mock.Author [])); reflexivity.
Defined.


Lemma main_stops_at_failed_listing_witness :
  main Mock.lower (Mock.constant_post None) Mock.fromstring
    (mock_constants Mock.delegate true true true true true) (World tt [])
  = (inl (Uncaught RequestException), World tt [get_request Mock.manager])
  /\ sent (World tt [get_request Mock.manager]) = [] ++ [get_request Mock.manager].
Proof.
  apply (main_stops_at_failed_listing Mock.lower (Mock.constant_post None) Mock.fromstring
           (mock_constants Mock.delegate true true true true true) (World tt []));
    [reflexivity | reflexivity | by_computation].
Defined.

